(** * The SNES knowledge-graph RAG pipeline (tools/neo4j_rag.py) and its
      reference-lookup helpers (tools/mcp_client.py), embedded in Rocq.

    Conventions of the embedding.

    - Python [str] is [string]: a sequence of 8-bit characters.  The model is
      exact for ASCII text; the fixed non-ASCII glyphs of the report are
      carried as their UTF-8 bytes, and [lower]/[upper] change the ASCII
      letters only.
    - A Python [dict] with string keys is a [gmap string value].
    - A Python [set] of strings is handed around as the list of its elements
      in iteration order.  The order in which CPython iterates a freshly built
      set depends on the string hashes, so it is a parameter of the model
      (class [SetOrder]).
    - Code that can raise returns an [outcome]: [Returns v] or [Raises e].
    - The relevance score is a Python float holding a small integer; it is
      modelled as a [Z]. *)

From Stdlib Require Import ZArith Ascii String DecimalString Lia.
From stdpp Require Import gmap strings list sorting.

Local Open Scope Z_scope.

(** ** Characters and strings, as Python treats them *)

Definition char_code (c : ascii) : N := N_of_ascii c.

Definition in_range (lo hi : N) (c : ascii) : bool :=
  ((lo <=? char_code c) && (char_code c <=? hi))%N.

Definition is_upper_char : ascii -> bool := in_range 65 90.
Definition is_lower_char : ascii -> bool := in_range 97 122.
Definition is_digit_char : ascii -> bool := in_range 48 57.

Definition lower_char (c : ascii) : ascii :=
  if is_upper_char c then ascii_of_N (char_code c + 32) else c.

Definition upper_char (c : ascii) : ascii :=
  if is_lower_char c then ascii_of_N (char_code c - 32) else c.

Fixpoint map_chars (f : ascii -> ascii) (s : string) : string :=
  match s with
  | EmptyString => EmptyString
  | String c s' => String (f c) (map_chars f s')
  end.

(** [s.lower()] and [s.upper()] *)
Definition lower : string -> string := map_chars lower_char.
Definition upper : string -> string := map_chars upper_char.

(** A word character of the regular expressions: [[A-Za-z0-9_]]. *)
Definition is_word_char (c : ascii) : bool :=
  is_upper_char c || is_lower_char c || is_digit_char c
  || Ascii.eqb c "_"%char.

(** [[0-9A-Fa-f]] *)
Definition is_hex_digit (c : ascii) : bool :=
  is_digit_char c || in_range 65 70 c || in_range 97 102 c.

(** [len(s)] *)
Definition len (s : string) : Z := Z.of_nat (String.length s).

(** [s.find(sub)], scanning from the left; [i] is the index of the head
    of [s] in the whole text. *)
Fixpoint find_from (sub s : string) (i : nat) : option nat :=
  if String.prefix sub s then Some i
  else match s with
       | EmptyString => None
       | String _ s' => find_from sub s' (S i)
       end.

Definition str_find (sub s : string) : Z :=
  match find_from sub s 0 with
  | Some i => Z.of_nat i
  | None => -1
  end.

(** [sub in s] *)
Definition str_in (sub s : string) : bool :=
  match find_from sub s 0 with
  | Some _ => true
  | None => false
  end.

(** [s.replace(old, new)] for a non-empty [old] (every call site passes
    one, two or three fixed characters): occurrences are replaced from the
    left and do not overlap; [skip] counts the characters of an occurrence
    still to be dropped. *)
Fixpoint replace_go (old new : string) (skip : nat) (s : string) : string :=
  match s with
  | EmptyString => EmptyString
  | String c s' =>
      match skip with
      | S k => replace_go old new k s'
      | O =>
          if String.prefix old s
          then new +:+ replace_go old new (String.length old - 1) s'
          else String c (replace_go old new O s')
      end
  end.

Definition replace (old new s : string) : string := replace_go old new O s.

(** [sep.join(parts)] *)
Fixpoint join (sep : string) (parts : list string) : string :=
  match parts with
  | [] => ""
  | [p] => p
  | p :: rest => p +:+ sep +:+ join sep rest
  end.

(** [s[:n]] and [s[-n:]] for a constant [n >= 0] *)
Definition str_take (n : nat) (s : string) : string := String.substring 0 n s.
Definition str_last (n : nat) (s : string) : string :=
  String.substring (String.length s - n) n s.

(** [l[:n]] for an arbitrary Python integer [n]: a negative bound counts
    from the end of the list. *)
Definition slice_to {A} (n : Z) (l : list A) : list A :=
  if 0 <=? n then take (Z.to_nat n) l
  else take (Z.to_nat (Z.of_nat (length l) + n)) l.

(** [str(n)] for an integer *)
Definition str_of_int (n : Z) : string := NilZero.string_of_int (Z.to_int n).

(** ** Exceptions *)

Inductive exn : Type :=
| Neo4jError
| KeyError (key : string)
| TypeError
| AttributeError
| ValueError.

Inductive outcome (A : Type) : Type :=
| Returns (a : A)
| Raises (e : exn).
Arguments Returns {A} a.
Arguments Raises {A} e.

Definition bind {A B} (m : outcome A) (k : A -> outcome B) : outcome B :=
  match m with
  | Returns a => k a
  | Raises e => Raises e
  end.

Notation "x <- m ;; k" := (bind m (fun x => k))
  (at level 100, m at next level, right associativity).

(** A loop body run over a list, left to right, stopping at the first
    exception. *)
Fixpoint for_each {A B} (f : A -> outcome B) (l : list A) : outcome (list B) :=
  match l with
  | [] => Returns []
  | a :: l' => b <- f a ;; bs <- for_each f l' ;; Returns (b :: bs)
  end.

(** A list comprehension with a condition that can raise. *)
Fixpoint keep_if {A} (f : A -> outcome bool) (l : list A) : outcome (list A) :=
  match l with
  | [] => Returns []
  | a :: l' =>
      b <- f a ;; rest <- keep_if f l' ;;
      Returns (if b then a :: rest else rest)
  end.

(** ** [int(s, 16)] *)

Definition is_space_char (c : ascii) : bool :=
  in_range 9 13 c || Ascii.eqb c " "%char.

Definition hex_value (c : ascii) : option Z :=
  if is_digit_char c then Some (Z.of_N (char_code c) - 48)
  else if in_range 65 70 c then Some (Z.of_N (char_code c) - 55)
  else if in_range 97 102 c then Some (Z.of_N (char_code c) - 87)
  else None.

(** Digits, with single underscores allowed between them. *)
Fixpoint hex_digits_value (after_underscore : bool) (acc : Z)
    (cs : list ascii) : option Z :=
  match cs with
  | [] => if after_underscore then None else Some acc
  | c :: cs' =>
      if Ascii.eqb c "_"%char
      then if after_underscore then None
           else hex_digits_value true acc cs'
      else match hex_value c with
           | Some d => hex_digits_value false (16 * acc + d) cs'
           | None => None
           end
  end.

Fixpoint drop_spaces (cs : list ascii) : list ascii :=
  match cs with
  | c :: cs' => if is_space_char c then drop_spaces cs' else cs
  | [] => []
  end.

Definition strip_spaces (cs : list ascii) : list ascii :=
  reverse (drop_spaces (reverse (drop_spaces cs))).

Definition int_base16 (s : string) : outcome Z :=
  let cs := strip_spaces (list_ascii_of_string s) in
  let '(sign, cs) :=
    match cs with
    | c :: r =>
        if Ascii.eqb c "+"%char then (1, r)
        else if Ascii.eqb c "-"%char then (-1, r)
        else (1, cs)
    | [] => (1, cs)
    end in
  let cs :=
    match cs with
    | z :: x :: r =>
        if Ascii.eqb z "0"%char
           && (Ascii.eqb x "x"%char || Ascii.eqb x "X"%char)
        then match r with
             | u :: r' => if Ascii.eqb u "_"%char then r' else r
             | [] => r
             end
        else cs
    | _ => cs
    end in
  match cs with
  | [] => Raises ValueError
  | c :: _ =>
      if Ascii.eqb c "_"%char then Raises ValueError
      else match hex_digits_value false 0 cs with
           | Some v => Returns (sign * v)
           | None => Raises ValueError
           end
  end.

(** ** Values and records *)

(** The values a record field can hold. *)
Inductive value : Type :=
| VNone
| VStr (s : string)
| VInt (n : Z)
| VList (l : list string).

Global Instance value_eq_dec : EqDecision value.
Proof. solve_decision. Defined.

(** A record as the pipeline sees it: a Python dict keyed by field name. *)
Abbreviation Item := (gmap string value).

Definition record (fields : list (string * value)) : Item :=
  list_to_map fields.

(** [item[key]] *)
Definition item_get (item : Item) (key : string) : outcome value :=
  match item !! key with
  | Some v => Returns v
  | None => Raises (KeyError key)
  end.

(** [key in item] *)
Definition has_key (key : string) (item : Item) : bool :=
  match item !! key with
  | Some _ => true
  | None => false
  end.

(** Python truth value of a field. *)
Definition truthy (v : value) : bool :=
  match v with
  | VNone => false
  | VStr s => negb (String.eqb s "")
  | VInt n => negb (n =? 0)
  | VList l => match l with [] => false | _ => true end
  end.

Definition newline : string := String (ascii_of_N 10) "".
Definition quote1 : ascii := ascii_of_N 39.
Definition quote2 : ascii := ascii_of_N 34.
Definition backslash : ascii := ascii_of_N 92.

Definition has_char (c : ascii) (s : string) : bool :=
  existsb (Ascii.eqb c) (list_ascii_of_string s).

Definition hex_digit_char (n : N) : ascii :=
  if (n <? 10)%N then ascii_of_N (48 + n) else ascii_of_N (87 + n).

Definition repr_char (q c : ascii) : string :=
  if Ascii.eqb c backslash then String backslash (String backslash "")
  else if Ascii.eqb c q then String backslash (String q "")
  else if (char_code c =? 10)%N then String backslash "n"
  else if (char_code c =? 13)%N then String backslash "r"
  else if (char_code c =? 9)%N then String backslash "t"
  else if ((char_code c <? 32) || (char_code c =? 127))%N
       then String backslash
              (String "x" (String (hex_digit_char (char_code c / 16))
                             (String (hex_digit_char (char_code c mod 16)) "")))
  else String c "".

Fixpoint concat_map_chars (f : ascii -> string) (s : string) : string :=
  match s with
  | EmptyString => EmptyString
  | String c s' => f c +:+ concat_map_chars f s'
  end.

(** [repr(s)] of a string *)
Definition repr_str (s : string) : string :=
  let q := if has_char quote1 s && negb (has_char quote2 s)
           then quote2 else quote1 in
  String q (concat_map_chars (repr_char q) s) +:+ String q "".

(** A value inside an f-string: [str(v)]. *)
Definition fmt (v : value) : string :=
  match v with
  | VNone => "None"
  | VStr s => s
  | VInt n => str_of_int n
  | VList l => "[" +:+ join ", " (map repr_str l) +:+ "]"
  end.

(** ** Iteration order of a set

    [set_iter l] is the order in which Python iterates the set obtained by
    adding the elements of [l] one after the other to an empty set. *)
Class SetOrder : Type := {
  set_iter : list string -> list string;
  set_iter_NoDup : forall l, NoDup (set_iter l);
  set_iter_elem : forall l x, x ∈ set_iter l <-> x ∈ l
}.

(** One admissible order: first insertion first. *)
Definition insertion_order : SetOrder.
Proof.
  refine {| set_iter := fun l => reverse (remove_dups (reverse l)) |}.
  - intros l. rewrite reverse_Permutation. apply NoDup_remove_dups.
  - intros l x.
    rewrite elem_of_reverse, elem_of_remove_dups, elem_of_reverse. done.
Defined.

(** ** Keyword extraction: [SNESRAGPipeline.extract_keywords] *)

Definition mod_keywords : list string :=
  [ "infinite-magic"; "infinite magic"; "magic";
    "2x-speed"; "2x speed"; "double speed"; "speed";
    "max-hearts"; "max hearts"; "health"; "hearts";
    "intro-skip"; "intro skip";
    "quick-start"; "quick start";
    "team-solution"; "ultimate" ].

Definition hardware_keywords : list string :=
  [ "ppu"; "cpu"; "dma"; "hdma"; "apu"; "spc700";
    "register"; "registers"; "$2100"; "$4200";
    "vblank"; "hblank"; "sprite"; "oam";
    "bgmode"; "background"; "tilemap" ].

Definition component_keywords : list string :=
  [ "player"; "sprite"; "ancilla"; "dungeon";
    "overworld"; "hud"; "audio"; "music";
    "ending"; "attract"; "menu" ].

Definition project_keywords : list string :=
  [ "zelda3"; "zelda 3"; "link to the past"; "alttp";
    "bsnes"; "snes9x"; "emulator";
    "disassembly"; "decompilation" ].

Definition memory_keywords : list string :=
  [ "wram"; "sram"; "rom"; "memory"; "bank";
    "address"; "pointer" ].

Definition all_keywords : list string :=
  mod_keywords ++ hardware_keywords ++ component_keywords ++
  project_keywords ++ memory_keywords.

(** [keyword.replace(" ", "-").replace("$", "")] *)
Definition normalize (keyword : string) : string :=
  replace "$" "" (replace " " "-" keyword).

(** The phrases of the vocabulary found in the lowercased text, in the
    order of the loop. *)
Definition keyword_hits (text : string) : list string :=
  let text_lower := lower text in
  filter (fun keyword => str_in keyword text_lower) all_keywords.

Definition extract_keywords `{SetOrder} (text : string) : list string :=
  set_iter (map normalize (keyword_hits text)).

(** ** The knowledge store

    The graph holds typed nodes, as the population script writes them.
    The node lists stand in the order in which the store scans them. *)

Record ModNode : Type := {
  mod_name : string;
  mod_description : string;
  mod_type : string;
  mod_affected_bytes : Z;
  (** names of the components reached by a MODIFIES relationship *)
  mod_modifies : list string
}.

Record RegisterNode : Type := {
  reg_address : string;
  reg_name : string;
  reg_category : string;
  reg_description : string
}.

Record ComponentNode : Type := {
  comp_name : string;
  comp_type : string;
  comp_description : string;
  comp_file_path : string
}.

Record KnowledgeNode : Type := {
  know_topic : string;
  know_content : string;
  know_type : string;
  know_tags : list string
}.

Record Graph : Type := {
  mod_nodes : list ModNode;
  register_nodes : list RegisterNode;
  component_nodes : list ComponentNode;
  knowledge_nodes : list KnowledgeNode
}.

(** The seven Cypher statements the pipeline sends, with their parameters. *)
Inductive cypher : Type :=
| ModsOfTypes (types : list string)
| ModsSample
| RegistersOfCategory (category : string)
| RegistersSample
| ComponentsNamed (names : list string)
| ComponentsSample
| KnowledgeMatching (keywords : list string).

(** [RETURN m.name, m.description, m.type, m.affected_bytes,
    collect(c.name)]: the rows are grouped by the four plain columns and the
    component names of a group are collected. *)
Definition mod_row : Type := (string * string * string * Z) * list string.

Definition mod_key (m : ModNode) : string * string * string * Z :=
  (mod_name m, mod_description m, mod_type m, mod_affected_bytes m).

Fixpoint add_mod_row (m : ModNode) (rows : list mod_row) : list mod_row :=
  match rows with
  | [] => [(mod_key m, mod_modifies m)]
  | (k, cs) :: rest =>
      if decide (k = mod_key m) then (k, cs ++ mod_modifies m) :: rest
      else (k, cs) :: add_mod_row m rest
  end.

Definition group_mods (ms : list ModNode) : list mod_row :=
  foldl (fun rows m => add_mod_row m rows) [] ms.

Definition mod_record (row : mod_row) : Item :=
  let '((name, description, type, bytes), components) := row in
  record [ ("name", VStr name); ("description", VStr description);
           ("type", VStr type); ("bytes", VInt bytes);
           ("components", VList components) ].

Definition register_record (r : RegisterNode) : Item :=
  record [ ("address", VStr (reg_address r)); ("name", VStr (reg_name r));
           ("description", VStr (reg_description r));
           ("category", VStr (reg_category r)) ].

Definition component_record (c : ComponentNode) : Item :=
  record [ ("name", VStr (comp_name c)); ("type", VStr (comp_type c));
           ("description", VStr (comp_description c));
           ("file", VStr (comp_file_path c)) ].

Definition knowledge_record (k : KnowledgeNode) : Item :=
  record [ ("topic", VStr (know_topic k)); ("content", VStr (know_content k));
           ("type", VStr (know_type k)); ("tags", VList (know_tags k)) ].

(** [ORDER BY r.address] *)
Definition order_by_address (rs : list RegisterNode) : list RegisterNode :=
  merge_sort (fun a b => String.le (reg_address a) (reg_address b)) rs.

(** [ANY(tag IN k.tags WHERE tag IN $keywords) OR ANY(keyword IN $keywords
    WHERE k.topic CONTAINS keyword OR k.content CONTAINS keyword)] *)
Definition knowledge_matches (keywords : list string) (k : KnowledgeNode) : bool :=
  existsb (fun tag => bool_decide (tag ∈ keywords)) (know_tags k)
  || existsb (fun keyword => str_in keyword (know_topic k)
                             || str_in keyword (know_content k)) keywords.

(** What the store answers to each statement. *)
Definition run_cypher (g : Graph) (q : cypher) : list Item :=
  match q with
  | ModsOfTypes types =>
      mod_record <$>
        group_mods (filter (fun m => mod_type m ∈ types) (mod_nodes g))
  | ModsSample =>
      mod_record <$> take 3 (group_mods (mod_nodes g))
  | RegistersOfCategory category =>
      register_record <$>
        take 5 (order_by_address
                  (filter (fun r => reg_category r = category)
                     (register_nodes g)))
  | RegistersSample =>
      register_record <$> take 5 (order_by_address (register_nodes g))
  | ComponentsNamed names =>
      component_record <$>
        filter (fun c => comp_name c ∈ names) (component_nodes g)
  | ComponentsSample =>
      component_record <$> take 3 (component_nodes g)
  | KnowledgeMatching keywords =>
      knowledge_record <$>
        take 3 (filter (fun k => knowledge_matches keywords k)
                  (knowledge_nodes g))
  end.

(** An open session: [session.run] either yields the records of the
    result, each already turned into a dict, or raises. *)
Definition Session : Type := cypher -> outcome (list Item).

(** A session on a store that answers every statement. *)
Definition graph_session (g : Graph) : Session :=
  fun q => Returns (run_cypher g q).

(** A session on a store that fails every statement. *)
Definition broken_session : Session := fun _ => Raises Neo4jError.

(** The pipeline object: [self.driver] is [None] when the store could not
    be reached at construction time. *)
Record SNESRAGPipeline : Type := {
  driver : option Session
}.

Definition is_available (self : SNESRAGPipeline) : bool :=
  match driver self with
  | Some _ => true
  | None => false
  end.

(** [any(k in keywords for k in names)] *)
Definition any_in (names keywords : list string) : bool :=
  existsb (fun k => bool_decide (k ∈ keywords)) names.

(** ** Retrieval per family *)

Definition infer_mod_types (keywords : list string) : list string :=
  (if any_in ["magic"; "infinite-magic"] keywords then ["magic"] else [])
  ++ (if any_in ["speed"; "2x-speed"; "double-speed"] keywords
      then ["speed"] else [])
  ++ (if any_in ["health"; "hearts"; "max-hearts"] keywords
      then ["health"] else []).

Definition get_relevant_mods (self : SNESRAGPipeline) (keywords : list string)
    : outcome (list Item) :=
  match driver self with
  | None => Returns []
  | Some session =>
      let mod_types := infer_mod_types keywords in
      match mod_types with
      | _ :: _ => session (ModsOfTypes mod_types)
      | [] => session ModsSample
      end
  end.

Definition infer_category (keywords : list string) : option string :=
  if any_in ["ppu"; "sprite"; "background"; "bgmode"] keywords then Some "ppu"
  else if any_in ["cpu"; "interrupt"; "nmi"; "irq"] keywords then Some "cpu"
  else if any_in ["dma"; "hdma"] keywords then Some "dma"
  else None.

Definition get_relevant_registers (self : SNESRAGPipeline)
    (keywords : list string) : outcome (list Item) :=
  match driver self with
  | None => Returns []
  | Some session =>
      match infer_category keywords with
      | Some category => session (RegistersOfCategory category)
      | None => session RegistersSample
      end
  end.

Definition infer_component_names (keywords : list string) : list string :=
  (if bool_decide ("player" ∈ keywords) then ["player"] else [])
  ++ (if any_in ["sprite"; "sprite_system"] keywords
      then ["sprite_system"] else [])
  ++ (if any_in ["dungeon"; "dungeon_system"] keywords
      then ["dungeon_system"] else []).

Definition get_relevant_components (self : SNESRAGPipeline)
    (keywords : list string) : outcome (list Item) :=
  match driver self with
  | None => Returns []
  | Some session =>
      let component_names := infer_component_names keywords in
      match component_names with
      | _ :: _ => session (ComponentsNamed component_names)
      | [] => session ComponentsSample
      end
  end.

Definition get_relevant_knowledge (self : SNESRAGPipeline)
    (keywords : list string) : outcome (list Item) :=
  match driver self with
  | None => Returns []
  | Some session => session (KnowledgeMatching keywords)
  end.

(** ** Reference lookups: tools/mcp_client.py *)

Definition instruction_entry (mnemonic description modes cycles flags notes : string)
    : string * Item :=
  (mnemonic,
   record [ ("mnemonic", VStr mnemonic); ("description", VStr description);
            ("modes", VStr modes); ("cycles", VStr cycles);
            ("flags", VStr flags); ("notes", VStr notes) ]).

Definition instruction_table : list (string * Item) :=
    [ instruction_entry "LDA" "Load Accumulator from Memory"
        "Immediate, Direct Page, Absolute, Indexed X/Y, Indirect, Long"
        "2-6 depending on mode and memory/accumulator size"
        "N (Negative), Z (Zero)"
        "One of the most commonly used instructions. Loads a value into the accumulator.";
      instruction_entry "STA" "Store Accumulator to Memory"
        "Direct Page, Absolute, Indexed X/Y, Indirect, Long"
        "3-6 depending on mode" "None"
        "Stores the accumulator value to memory. Does not affect any flags.";
      instruction_entry "JSR" "Jump to Subroutine" "Absolute, Indexed X" "6"
        "None" "Pushes return address-1 to stack and jumps to subroutine.";
      instruction_entry "JMP" "Jump to Address"
        "Absolute, Indirect, Indexed Indirect, Absolute Long"
        "3-6 depending on mode" "None"
        "Unconditional jump. Does not push return address to stack.";
      instruction_entry "BEQ" "Branch if Equal (Zero flag set)" "Relative"
        "2 (3 if branch taken, +1 if crossing page boundary)" "None"
        "Branches if Z flag is set. Range: -128 to +127 bytes.";
      instruction_entry "BNE" "Branch if Not Equal (Zero flag clear)" "Relative"
        "2 (3 if branch taken, +1 if crossing page boundary)" "None"
        "Branches if Z flag is clear. Range: -128 to +127 bytes.";
      instruction_entry "CMP" "Compare Accumulator with Memory"
        "Immediate, Direct Page, Absolute, Indexed, Indirect"
        "2-6 depending on mode" "N (Negative), Z (Zero), C (Carry)"
        "Subtracts memory from accumulator and sets flags, but does not store result.";
      instruction_entry "INC" "Increment Memory or Accumulator"
        "Accumulator, Direct Page, Absolute, Indexed X"
        "2-8 depending on mode" "N (Negative), Z (Zero)"
        "Increments value by 1. Sets N and Z flags based on result.";
      instruction_entry "DEC" "Decrement Memory or Accumulator"
        "Accumulator, Direct Page, Absolute, Indexed X"
        "2-8 depending on mode" "N (Negative), Z (Zero)"
        "Decrements value by 1. Sets N and Z flags based on result.";
      instruction_entry "AND" "Logical AND Accumulator with Memory"
        "Immediate, Direct Page, Absolute, Indexed, Indirect"
        "2-6 depending on mode" "N (Negative), Z (Zero)"
        "Performs bitwise AND operation between accumulator and memory.";
      instruction_entry "ORA" "Logical OR Accumulator with Memory"
        "Immediate, Direct Page, Absolute, Indexed, Indirect"
        "2-6 depending on mode" "N (Negative), Z (Zero)"
        "Performs bitwise OR operation between accumulator and memory.";
      instruction_entry "REP" "Reset Processor Status Bits" "Immediate" "3"
        "Can affect any flag based on immediate value"
        "65816-specific. Clears bits in status register. Common: REP #$20 (16-bit A), REP #$30 (16-bit A+X/Y).";
      instruction_entry "SEP" "Set Processor Status Bits" "Immediate" "3"
        "Can affect any flag based on immediate value"
        "65816-specific. Sets bits in status register. Common: SEP #$20 (8-bit A), SEP #$30 (8-bit A+X/Y)." ].

Definition instructions : gmap string Item := list_to_map instruction_table.

(** [snes_lookup_instruction(mnemonic=...)] *)
Definition snes_lookup_instruction (mnemonic : string) : outcome (option Item) :=
  if String.eqb mnemonic "" then Returns None
  else Returns (instructions !! upper mnemonic).

Definition ppu_registers : list (Z * (string * string * string * string)) :=
  [ (0x2100, ("INIDISP", "Screen Display Register - Controls brightness and forced blank", "ppu", "Write"));
    (0x2101, ("OBJSEL", "Object Size and Character Size Register", "ppu", "Write"));
    (0x2102, ("OAMADDL", "OAM Address Register (low byte)", "ppu", "Write"));
    (0x2103, ("OAMADDH", "OAM Address Register (high byte)", "ppu", "Write"));
    (0x2104, ("OAMDATA", "OAM Data Write Register", "ppu", "Write"));
    (0x2105, ("BGMODE", "BG Mode and Character Size Register", "ppu", "Write"));
    (0x2106, ("MOSAIC", "Mosaic Register", "ppu", "Write"));
    (0x2107, ("BG1SC", "BG1 Screen Base and Size", "ppu", "Write")) ].

Definition cpu_registers : list (Z * (string * string * string)) :=
  [ (0x4200, ("NMITIMEN", "Interrupt Enable Flags - Controls NMI, IRQ, and auto-joypad", "cpu"));
    (0x4201, ("WRIO", "I/O Port Write Register", "cpu"));
    (0x4202, ("WRMPYA", "Multiplicand A (8-bit)", "cpu"));
    (0x4203, ("WRMPYB", "Multiplicand B (8-bit)", "cpu"));
    (0x4204, ("WRDIVL", "Dividend (low byte)", "cpu"));
    (0x4205, ("WRDIVH", "Dividend (high byte)", "cpu"));
    (0x4206, ("WRDIVB", "Divisor (8-bit)", "cpu")) ].

(** [table.get(key)] on a table written as a list of pairs with distinct
    keys *)
Fixpoint table_get {A} (key : Z) (table : list (Z * A)) : option A :=
  match table with
  | [] => None
  | (k, a) :: rest => if k =? key then Some a else table_get key rest
  end.

Definition rom_banks : list string :=
  [ "80"; "81"; "82"; "83"; "84"; "85"; "86"; "87";
    "88"; "89"; "8A"; "8B"; "8C"; "8D"; "8E"; "8F" ].

Definition hardware_register (addr name description category access : string)
    : Item :=
  record [ ("address", VStr ("$" +:+ addr)); ("name", VStr name);
           ("description", VStr description);
           ("region", VStr "Hardware Registers"); ("type", VStr "I/O");
           ("category", VStr category); ("access", VStr access) ].

Definition memory_region (addr region type description access : string)
    (extra : list (string * value)) : Item :=
  record ([ ("address", VStr ("$" +:+ addr)); ("region", VStr region);
            ("type", VStr type); ("description", VStr description);
            ("access", VStr access) ] ++ extra).

(** The part of [snes_memory_map] after the address has been parsed. *)
Definition classify_address (addr : string) (addr_val : Z) : Item :=
  let six := (String.length addr =? 6)%nat in
  if (0x2100 <=? addr_val) && (addr_val <=? 0x21FF) then
    match table_get addr_val ppu_registers with
    | Some (name, description, category, access) =>
        hardware_register addr name description category access
    | None =>
        memory_region addr "PPU Registers" "I/O"
          "Picture Processing Unit hardware registers"
          "Read/Write (varies by register)" []
    end
  else if (0x4200 <=? addr_val) && (addr_val <=? 0x44FF) then
    match table_get addr_val cpu_registers with
    | Some (name, description, category) =>
        hardware_register addr name description category "Write"
    | None =>
        memory_region addr "CPU/DMA Registers" "I/O"
          "CPU control and DMA hardware registers"
          "Read/Write (varies by register)" []
    end
  else if six && String.eqb (str_take 2 addr) "7E" then
    memory_region addr "WRAM (Work RAM)" "RAM"
      "General purpose work RAM. Zelda 3 stores game state, player data, and temporary variables here."
      "Read/Write" [("size", VStr "128 KB total (banks $7E-$7F)")]
  else if six && String.eqb (str_take 2 addr) "7F" then
    memory_region addr "WRAM (Work RAM)" "RAM"
      "Extended work RAM (second 64KB of WRAM)"
      "Read/Write" [("size", VStr "128 KB total (banks $7E-$7F)")]
  else if six && bool_decide (str_take 2 addr ∈ rom_banks) then
    memory_region addr "ROM (LoROM mapping)" "ROM"
      "Game code and data in ROM. Read-only." "Read-only"
      [("note", VStr "Banks $80-$FF mirror $00-$7F with ROM mapped")]
  else
    memory_region addr "Unknown" "Unknown" "Memory region not identified"
      "Unknown" [].

(** [snes_memory_map(address=...)] *)
Definition snes_memory_map (address : string) : outcome (option Item) :=
  if String.eqb address "" then Returns None
  else
    let addr := upper (replace "0x" "" (replace "$" "" address)) in
    if (String.length addr =? 4)%nat then
      addr_val <- int_base16 addr ;;
      Returns (Some (classify_address addr addr_val))
    else if (String.length addr =? 6)%nat then
      addr_val <- int_base16 (str_last 4 addr) ;;
      bank_val <- int_base16 (str_take 2 addr) ;;
      Returns (Some (classify_address addr addr_val))
    else Returns None.

(** The two lookup functions the pipeline imports.  [MCP_AVAILABLE] is true
    exactly when the import succeeded. *)
Record McpClient : Type := {
  lookup_instruction : string -> outcome (option Item);
  lookup_memory_map : string -> outcome (option Item)
}.

Definition mcp_client : McpClient :=
  {| lookup_instruction := snes_lookup_instruction;
     lookup_memory_map := snes_memory_map |}.

(** ** Pattern detectors *)

(** The alternation of the instruction pattern, in its order. *)
Definition mnemonics : list string :=
  [ "LDA"; "STA"; "LDX"; "STX"; "LDY"; "STY"; "JSR"; "JSL"; "JMP"; "JML";
    "BEQ"; "BNE"; "BCC"; "BCS"; "BMI"; "BPL"; "BVC"; "BVS"; "BRA"; "BRL";
    "ADC"; "SBC"; "AND"; "ORA"; "EOR"; "CMP"; "CPX"; "CPY";
    "INC"; "DEC"; "INX"; "DEX"; "INY"; "DEY";
    "ASL"; "LSR"; "ROL"; "ROR";
    "PHP"; "PLP"; "PHA"; "PLA"; "PHX"; "PLX"; "PHY"; "PLY"; "PHB"; "PLB";
    "PHD"; "PLD"; "PHK";
    "RTI"; "RTS"; "RTL";
    "SEI"; "CLI"; "SEC"; "CLC"; "SED"; "CLD"; "SEP"; "REP"; "XCE";
    "NOP"; "WDM"; "COP"; "BRK"; "WAI"; "STP";
    "TXA"; "TAX"; "TYA"; "TAY"; "TXS"; "TSX"; "TXY"; "TYX"; "TCD"; "TDC";
    "TCS"; "TSC"; "XBA" ].

Definition str_drop (n : nat) (s : string) : string :=
  String.substring n (String.length s - n) s.

(** [\b] right after a word character: the text ends or goes on with a
    character that is not a word character. *)
Definition word_ends (s : string) : bool :=
  match s with
  | EmptyString => true
  | String c _ => negb (is_word_char c)
  end.

(** The first alternative that matches at the head of [s] and is followed
    by [\b]. *)
Definition match_mnemonic (s : string) : option string :=
  List.find
    (fun m => String.prefix m s && word_ends (str_drop (String.length m) s))
    mnemonics.

(** [re.findall] of the instruction pattern: [prev_word] tells whether the
    character before the head of [s] is a word character, [skip] counts the
    characters of the last match still to be passed. *)
Fixpoint instruction_scan (prev_word : bool) (skip : nat) (s : string)
    : list string :=
  match s with
  | EmptyString => []
  | String c rest =>
      match skip with
      | S k => instruction_scan (is_word_char c) k rest
      | O =>
          match (if prev_word then None else match_mnemonic s) with
          | Some m => m :: instruction_scan (is_word_char c) (String.length m - 1) rest
          | None => instruction_scan (is_word_char c) O rest
          end
      end
  end.

Definition instruction_findall (text : string) : list string :=
  instruction_scan false O text.

(** Exactly [n] hexadecimal digits at the head of [s], followed by [\b]. *)
Definition match_hex_run (n : nat) (s : string) : option string :=
  let digits := str_take n s in
  if (String.length digits =? n)%nat
     && forallb is_hex_digit (list_ascii_of_string digits)
     && word_ends (str_drop n s)
  then Some digits else None.

(** [[0-9A-Fa-f]{4,6}\b]: the longest run is tried first. *)
Definition match_address_digits (s : string) : option string :=
  match match_hex_run 6 s with
  | Some d => Some d
  | None =>
      match match_hex_run 5 s with
      | Some d => Some d
      | None => match_hex_run 4 s
      end
  end.

(** [re.findall] of the address pattern; the group is the digits. *)
Fixpoint address_scan (skip : nat) (s : string) : list string :=
  match s with
  | EmptyString => []
  | String c rest =>
      match skip with
      | S k => address_scan k rest
      | O =>
          match (if Ascii.eqb c "$"%char then match_address_digits rest
                 else None) with
          | Some d => d :: address_scan (String.length d) rest
          | None => address_scan O rest
          end
      end
  end.

Definition address_findall (text : string) : list string := address_scan O text.

(** [if info:] on the dict a lookup returned: an empty dict counts as
    nothing. *)
Definition nonempty_dict (d : Item) : bool := negb (bool_decide (d = ∅)).

Definition resolved (info : option Item) : bool :=
  match info with
  | Some d => nonempty_dict d
  | None => false
  end.

(** The lookup loop shared by the two detectors: the results that are
    truthy are appended. *)
Fixpoint lookup_all (lookup : string -> outcome (option Item))
    (names : list string) : outcome (list Item) :=
  match names with
  | [] => Returns []
  | n :: rest =>
      info <- lookup n ;;
      more <- lookup_all lookup rest ;;
      Returns (match info with
               | Some d => if nonempty_dict d then d :: more else more
               | None => more
               end)
  end.

Definition detect_and_explain_instructions `{SetOrder} (mcp : option McpClient)
    (user_prompt : string) : outcome (list Item) :=
  match mcp with
  | None => Returns []
  | Some client =>
      let found := instruction_findall (upper user_prompt) in
      match found with
      | [] => Returns []
      | _ =>
          let unique_instructions := take 5 (set_iter found) in
          lookup_all (lookup_instruction client) unique_instructions
      end
  end.

Definition detect_and_explain_addresses `{SetOrder} (mcp : option McpClient)
    (user_prompt : string) : outcome (list Item) :=
  match mcp with
  | None => Returns []
  | Some client =>
      let addresses := address_findall user_prompt in
      match addresses with
      | [] => Returns []
      | _ =>
          let unique_addresses := take 10 (set_iter addresses) in
          lookup_all (fun addr => lookup_memory_map client ("$" +:+ addr))
            unique_addresses
      end
  end.

(** ** Scoring and reranking *)

(** [searchable_text += item[key].lower() + " "] when the key is there *)
Definition text_part (item : Item) (key : string) : outcome string :=
  match item !! key with
  | None => Returns ""
  | Some (VStr s) => Returns (lower s +:+ " ")
  | Some _ => Raises AttributeError
  end.

Definition searchable_text (item : Item) : outcome string :=
  name <- text_part item "name" ;;
  description <- text_part item "description" ;;
  topic <- text_part item "topic" ;;
  content <- text_part item "content" ;;
  Returns (((("" +:+ name) +:+ description) +:+ topic) +:+ content).

(** [sum(1 for kw in keywords if kw in searchable_text)] *)
Definition count_matches (text : string) (keywords : list string) : Z :=
  foldr Z.add 0 ((fun _ => 1) <$> filter (fun kw => str_in kw text) keywords).

(** Factor 3: the loop over the keywords, left at the first keyword found
    within the first hundred characters. *)
Fixpoint position_bonus (text : string) (keywords : list string) : Z :=
  match keywords with
  | [] => 0
  | kw :: rest =>
      if str_in kw text then
        let position := str_find kw text in
        if position <? 50 then 3
        else if position <? 100 then 2
        else position_bonus text rest
      else position_bonus text rest
  end.

Definition score_of_text (text query_lower : string) (keywords : list string) : Z :=
  let score := 0 in
  let score := score + Z.min (count_matches text keywords * 2) 10 in
  let score := if str_in query_lower text then score + 5 else score in
  let score := score + position_bonus text keywords in
  let score :=
    if len text >? 100 then score + 2
    else if len text >? 50 then score + 1
    else score in
  score.

Definition calculate_relevance_score (item : Item) (query : string)
    (keywords : list string) : outcome Z :=
  let query_lower := lower query in
  text <- searchable_text item ;;
  Returns (score_of_text text query_lower keywords).

(** [scored_items]: the items with a positive score, each with its score. *)
Fixpoint score_items (all_items : list Item) (query : string)
    (keywords : list string) : outcome (list (Z * Item)) :=
  match all_items with
  | [] => Returns []
  | item :: rest =>
      score <- calculate_relevance_score item query keywords ;;
      scored <- score_items rest query keywords ;;
      Returns (if score >? 0 then (score, item) :: scored else scored)
  end.

(** [list.sort(key=lambda x: x[0], reverse=True)]: by score, highest first;
    entries of equal score stay in the order they had. *)
Fixpoint insert_by_score (x : Z * Item) (sorted : list (Z * Item))
    : list (Z * Item) :=
  match sorted with
  | [] => [x]
  | y :: rest =>
      if fst y <=? fst x then x :: y :: rest
      else y :: insert_by_score x rest
  end.

Definition sort_by_score (l : list (Z * Item)) : list (Z * Item) :=
  foldr insert_by_score [] l.

Definition rerank_results (all_items : list Item) (query : string)
    (keywords : list string) (max_items : Z) : outcome (list Item) :=
  scored_items <- score_items all_items query keywords ;;
  Returns (snd <$> slice_to max_items (sort_by_score scored_items)).

(** ** Context assembly: [SNESRAGPipeline.build_context] *)

(** [item['_type'] = t] *)
Definition tag (t : string) (item : Item) : Item := <["_type" := VStr t]> item.

(** [item['_type'] == t] *)
Definition of_type (t : string) (item : Item) : outcome bool :=
  v <- item_get item "_type" ;;
  Returns (bool_decide (v = VStr t)).

Fixpoint chars (s : string) : list string :=
  match s with
  | EmptyString => []
  | String c s' => String c "" :: chars s'
  end.

(** [sep.join(v)] *)
Definition join_value (sep : string) (v : value) : outcome string :=
  match v with
  | VList l => Returns (join sep l)
  | VStr s => Returns (join sep (chars s))
  | _ => Raises TypeError
  end.

(** [len(v)] *)
Definition value_len (v : value) : outcome Z :=
  match v with
  | VStr s => Returns (len s)
  | VList l => Returns (Z.of_nat (length l))
  | _ => Raises TypeError
  end.

Definition format_mod (m : Item) : outcome string :=
  components <- item_get m "components" ;;
  components_str <-
    (if truthy components then join_value ", " components
     else Returns "N/A") ;;
  name <- item_get m "name" ;;
  type <- item_get m "type" ;;
  description <- item_get m "description" ;;
  bytes <- item_get m "bytes" ;;
  Returns ("  - **" +:+ fmt name +:+ "** (" +:+ fmt type +:+ "): "
           +:+ fmt description +:+ newline
           +:+ "    Affects: " +:+ components_str
           +:+ " | Bytes changed: " +:+ fmt bytes).

Definition format_register (reg : Item) : outcome string :=
  address <- item_get reg "address" ;;
  name <- item_get reg "name" ;;
  description <- item_get reg "description" ;;
  Returns ("  - **" +:+ fmt address +:+ " (" +:+ fmt name +:+ ")**: "
           +:+ fmt description).

Definition format_component (comp : Item) : outcome string :=
  name <- item_get comp "name" ;;
  type <- item_get comp "type" ;;
  description <- item_get comp "description" ;;
  Returns ("  - **" +:+ fmt name +:+ "** (" +:+ fmt type +:+ "): "
           +:+ fmt description).

(** [k['content'][:200] + "..." if len(k['content']) > 200 else k['content']] *)
Definition truncate_content (k : Item) : outcome string :=
  content <- item_get k "content" ;;
  n <- value_len content ;;
  if n >? 200 then
    match content with
    | VStr s => Returns (str_take 200 s +:+ "...")
    | _ => Raises TypeError
    end
  else Returns (fmt content).

Definition format_knowledge (k : Item) : outcome string :=
  content <- truncate_content k ;;
  topic <- item_get k "topic" ;;
  Returns ("  - **" +:+ fmt topic +:+ "**: " +:+ content).

(** One section of the report: nothing for an empty family, else the
    heading and a line for each of the first [cap] items. *)
Definition section (heading : string) (cap : nat)
    (format : Item -> outcome string) (items : list Item)
    : outcome (list string) :=
  match items with
  | [] => Returns []
  | _ => lines <- for_each format (take cap items) ;;
         Returns (heading :: lines)
  end.

Definition format_instruction (instr : Item) : outcome (list string) :=
  mnemonic <- item_get instr "mnemonic" ;;
  description <- item_get instr "description" ;;
  modes <- item_get instr "modes" ;;
  cycles <- item_get instr "cycles" ;;
  flags <- item_get instr "flags" ;;
  let lines :=
    [ newline +:+ "**" +:+ fmt mnemonic +:+ "**: " +:+ fmt description;
      "  - Modes: " +:+ fmt modes;
      "  - Cycles: " +:+ fmt cycles;
      "  - Flags: " +:+ fmt flags ] in
  match instr !! "notes" with
  | Some notes =>
      if truthy notes then Returns (lines ++ ["  - Notes: " +:+ fmt notes])
      else Returns lines
  | None => Returns lines
  end.

Definition format_address (addr : Item) : outcome (list string) :=
  let named :=
    match addr !! "name" with
    | Some name => truthy name
    | None => false
    end in
  address <- item_get addr "address" ;;
  what <- item_get addr (if named then "name" else "region") ;;
  description <- item_get addr "description" ;;
  type <- item_get addr "type" ;;
  access <- item_get addr "access" ;;
  Returns [ newline +:+ "**" +:+ fmt address +:+ "** - " +:+ fmt what;
            "  " +:+ fmt description;
            "  Type: " +:+ fmt type +:+ ", Access: " +:+ fmt access ].

Definition mods_heading : string := "🎮 **Relevant Mods:**".
Definition registers_heading : string :=
  newline +:+ "🔧 **Relevant SNES Registers:**".
Definition components_heading : string :=
  newline +:+ "📦 **Relevant Components:**".
Definition knowledge_heading : string := newline +:+ "📚 **Domain Knowledge:**".
Definition instructions_heading : string :=
  newline +:+ "🔧 **Detected 65816 Instructions:**".
Definition addresses_heading : string :=
  newline +:+ "📍 **Memory Addresses Referenced:**".
Definition header : string :=
  "🧠 **Enhanced Knowledge Context** (Neo4j + MCP Servers):".

(** An enrichment section: nothing when the detector found nothing. *)
Definition enrichment (heading : string)
    (format : Item -> outcome (list string)) (found : list Item)
    : outcome (list string) :=
  match found with
  | [] => Returns []
  | _ => blocks <- for_each format found ;;
         Returns (heading :: concat blocks)
  end.

Definition plain_footer (enrichment_count : Z) : string :=
  newline +:+ "_Retrieved and reranked " +:+ str_of_int enrichment_count
  +:+ " most relevant items from knowledge graph_".

(** The four retrievals, merged in the fixed order mods, registers,
    components, knowledge, each record tagged with its family. *)
Definition merge_candidates (mods registers components knowledge : list Item)
    : list Item :=
  (tag "mod" <$> mods) ++ (tag "register" <$> registers)
  ++ (tag "component" <$> components) ++ (tag "knowledge" <$> knowledge).

Definition retrieve_candidates (self : SNESRAGPipeline)
    (keywords : list string) : outcome (list Item) :=
  mods <- get_relevant_mods self keywords ;;
  registers <- get_relevant_registers self keywords ;;
  components <- get_relevant_components self keywords ;;
  knowledge <- get_relevant_knowledge self keywords ;;
  Returns (merge_candidates mods registers components knowledge).

(** The reranked items, grouped by family again and formatted. *)
Definition family_sections (ranked_items : list Item) : outcome (list string) :=
  mods <- keep_if (of_type "mod") ranked_items ;;
  registers <- keep_if (of_type "register") ranked_items ;;
  components <- keep_if (of_type "component") ranked_items ;;
  knowledge <- keep_if (of_type "knowledge") ranked_items ;;
  mod_lines <- section mods_heading 3 format_mod mods ;;
  register_lines <- section registers_heading 5 format_register registers ;;
  component_lines <-
    section components_heading 3 format_component components ;;
  knowledge_lines <- section knowledge_heading 2 format_knowledge knowledge ;;
  Returns (mod_lines ++ register_lines ++ component_lines ++ knowledge_lines).

(** The block under [if MCP_AVAILABLE:] that adds the enrichments. *)
Definition enrichment_sections `{SetOrder} (mcp : option McpClient)
    (query : string) : outcome (list string) :=
  match mcp with
  | Some _ =>
      instruction_help <- detect_and_explain_instructions mcp query ;;
      instruction_lines <-
        enrichment instructions_heading format_instruction instruction_help ;;
      address_info <- detect_and_explain_addresses mcp query ;;
      address_lines <-
        enrichment addresses_heading format_address address_info ;;
      Returns (instruction_lines ++ address_lines)
  | None => Returns []
  end.

Definition footer_line `{SetOrder} (mcp : option McpClient) (query : string)
    (enrichment_count : Z) : outcome string :=
  match mcp with
  | Some _ =>
      instruction_help <- detect_and_explain_instructions mcp query ;;
      address_info <- detect_and_explain_addresses mcp query ;;
      let instruction_count := Z.of_nat (length instruction_help) in
      let address_count := Z.of_nat (length address_info) in
      if (instruction_count >? 0) || (address_count >? 0)
      then Returns (newline +:+ "_Retrieved " +:+ str_of_int enrichment_count
                    +:+ " items from Neo4j + "
                    +:+ str_of_int (instruction_count + address_count)
                    +:+ " MCP enrichments_")
      else Returns (plain_footer enrichment_count)
  | None => Returns (plain_footer enrichment_count)
  end.

Definition build_context `{SetOrder} (mcp : option McpClient)
    (self : SNESRAGPipeline) (query : string) (max_items : Z)
    : outcome string :=
  if negb (is_available self) then Returns ""
  else
    let keywords := extract_keywords query in
    match keywords with
    | [] => Returns ""
    | _ =>
        all_items <- retrieve_candidates self keywords ;;
        match all_items with
        | [] => Returns ""
        | _ =>
            ranked_items <- rerank_results all_items query keywords max_items ;;
            match ranked_items with
            | [] => Returns ""
            | _ =>
                family_lines <- family_sections ranked_items ;;
                enrichment_lines <- enrichment_sections mcp query ;;
                let context_parts := family_lines ++ enrichment_lines in
                match context_parts with
                | [] => Returns ""
                | _ =>
                    footer <-
                      footer_line mcp query (Z.of_nat (length ranked_items)) ;;
                    Returns
                      (join newline ([header] ++ context_parts ++ [footer]))
                end
            end
        end
    end.

(** [get_rag_context], on a pipeline already constructed: the one place
    where an exception is caught. *)
Definition get_rag_context `{SetOrder} (mcp : option McpClient)
    (rag : SNESRAGPipeline) (query : string) : option string :=
  if negb (is_available rag) then None
  else match build_context mcp rag query 10 with
       | Returns context =>
           if String.eqb context "" then None else Some context
       | Raises _ => None
       end.

(** ** The other entry points *)

(** [snes_register_info(address, name, category, search)] of
    tools/mcp_client.py; an argument left out is [None]. *)
Definition snes_register_info (address name category search : option string)
    : outcome (option (list Item)) :=
  match address with
  | Some a =>
      if String.eqb a "" then Returns None
      else
        region_info <- snes_memory_map a ;;
        match region_info with
        | Some d =>
            if nonempty_dict d && has_key "name" d then Returns (Some [d])
            else Returns None
        | None => Returns None
        end
  | None => Returns None
  end.

(** What [search_knowledge_graph] returns: the empty list when there is no
    driver, else a dict of the four retrievals. *)
Inductive search_result : Type :=
| NoResults
| Results (mods registers components knowledge : list Item).

Definition search_knowledge_graph `{SetOrder} (self : SNESRAGPipeline)
    (query : string) : outcome search_result :=
  match driver self with
  | None => Returns NoResults
  | Some _ =>
      let keywords := extract_keywords query in
      mods <- get_relevant_mods self keywords ;;
      registers <- get_relevant_registers self keywords ;;
      components <- get_relevant_components self keywords ;;
      knowledge <- get_relevant_knowledge self keywords ;;
      Returns (Results mods registers components knowledge)
  end.

(** ** Notions used to state the properties *)

(** Factor 1 in closed form. *)
Definition keyword_hit_count (text : string) (keywords : list string) : Z :=
  Z.of_nat (length (filter (fun kw => str_in kw text) keywords)).

(** Factor 3 in closed form: the first keyword, in the iteration order of
    the keyword set, whose first occurrence lies below index 100 decides. *)
Definition first_hit_bonus (text : string) (keywords : list string) : Z :=
  match List.find (fun kw => str_in kw text && (str_find kw text <? 100))
          keywords with
  | Some kw => if str_find kw text <? 50 then 3 else 2
  | None => 0
  end.


(** Factor 4. *)
Definition richness (text : string) : Z :=
  if len text >? 100 then 2 else if len text >? 50 then 1 else 0.

(** The four fields that make up the searchable text hold strings where
    they are present. *)
Definition text_keys : list string := ["name"; "description"; "topic"; "content"].

Definition text_fields_are_strings (item : Item) : bool :=
  forallb (fun key => match item !! key with
                      | None | Some (VStr _) => true
                      | Some _ => false
                      end) text_keys.

(** The searchable text of a record whose text fields hold strings. *)
Definition text_of (item : Item) : string :=
  let part key := match item !! key with
                  | Some (VStr s) => lower s +:+ " "
                  | _ => ""
                  end in
  ((("" +:+ part "name") +:+ part "description") +:+ part "topic")
  +:+ part "content".

(** The tokens a keyword set can hold. *)
Definition keyword_tokens : list string := normalize <$> all_keywords.

(** Two pipelines whose stores answer every statement alike. *)
Definition same_store (a b : SNESRAGPipeline) : Prop :=
  match driver a, driver b with
  | Some sa, Some sb => forall q, sa q = sb q
  | None, None => True
  | _, _ => False
  end.

(** Two lookup modules that answer every lookup alike. *)
Definition same_lookups (a b : option McpClient) : Prop :=
  match a, b with
  | Some ca, Some cb =>
      (forall m, lookup_instruction ca m = lookup_instruction cb m)
      /\ (forall addr, lookup_memory_map ca addr = lookup_memory_map cb addr)
  | None, None => True
  | _, _ => False
  end.

(** ** Sample data *)

Definition sample_graph : Graph :=
  {| mod_nodes :=
       [ {| mod_name := "infinite-magic";
            mod_description := "Keeps the magic meter full at all times";
            mod_type := "magic"; mod_affected_bytes := 7;
            mod_modifies := ["player"; "hud"] |};
         {| mod_name := "2x-speed";
            mod_description := "Doubles the walking speed of the player";
            mod_type := "speed"; mod_affected_bytes := 12;
            mod_modifies := [] |} ];
     register_nodes :=
       [ {| reg_address := "$2101"; reg_name := "OBJSEL"; reg_category := "ppu";
            reg_description := "Object size and character size of the ppu" |};
         {| reg_address := "$2100"; reg_name := "INIDISP"; reg_category := "ppu";
            reg_description := "Screen display register of the ppu" |} ];
     component_nodes :=
       [ {| comp_name := "player"; comp_type := "source";
            comp_description := "Player movement and magic handling";
            comp_file_path := "src/player.c" |} ];
     knowledge_nodes :=
       [ {| know_topic := "magic meter";
            know_content := "The magic meter is stored in work RAM";
            know_type := "knowledge"; know_tags := ["magic"] |} ] |}.

Definition sample_pipeline : SNESRAGPipeline :=
  {| driver := Some (graph_session sample_graph) |}.

(** A pipeline that never reached the store. *)
Definition offline_pipeline : SNESRAGPipeline := {| driver := None |}.

(** A pipeline whose store went away after construction. *)
Definition failing_pipeline : SNESRAGPipeline :=
  {| driver := Some broken_session |}.

(** A record whose text mentions "ppu" at index 0 and "dma" at index 60. *)
Definition late_hit_item : Item :=
  record [ ("name",
            VStr "ppu---------------------------------------------------------dma") ].


Definition magic_items : list Item :=
  [ record [("name", VStr "magic")];
    record [("name", VStr "magic wand")];
    record [("name", VStr "the magic meter")] ].

(** Highest score first. *)
Definition by_score_desc : relation (Z * Item) := fun x y => y.1 <= x.1.


(** A store with six magic mods, five registers outside the inferred
    categories, and six components named "player". *)
Definition crowded_graph : Graph :=
  {| mod_nodes :=
       (fun name => {| mod_name := name; mod_description := "Magic tweak";
                       mod_type := "magic"; mod_affected_bytes := 1;
                       mod_modifies := [] |})
       <$> ["magic-a"; "magic-b"; "magic-c"; "magic-d"; "magic-e"; "magic-f"];
     register_nodes :=
       (fun address => {| reg_address := address; reg_name := "APUIO";
                          reg_category := "apu";
                          reg_description := "Sound port" |})
       <$> ["$2140"; "$2141"; "$2142"; "$2143"; "$2144"];
     component_nodes :=
       (fun path => {| comp_name := "player"; comp_type := "source";
                       comp_description := "Player code";
                       comp_file_path := path |})
       <$> ["a/player.c"; "b/player.c"; "c/player.c"; "d/player.c";
            "e/player.c"; "f/player.c"];
     knowledge_nodes := [] |}.

Definition crowded_pipeline : SNESRAGPipeline :=
  {| driver := Some (graph_session crowded_graph) |}.

(** Another admissible order: last insertion first. *)
Definition reverse_insertion_order : SetOrder.
Proof.
  refine {| set_iter := fun l => remove_dups (reverse l) |}.
  - intros l. apply NoDup_remove_dups.
  - intros l x. rewrite elem_of_remove_dups, elem_of_reverse. done.
Defined.

(** A store that holds the register $2100 itself, described briefly. *)
Definition terse_graph : Graph :=
  {| mod_nodes := [];
     register_nodes :=
       [ {| reg_address := "$2100"; reg_name := "INIDISP";
            reg_category := "ppu"; reg_description := "Screen display" |} ];
     component_nodes := [];
     knowledge_nodes := [] |}.

Definition terse_pipeline : SNESRAGPipeline :=
  {| driver := Some (graph_session terse_graph) |}.

(** Ten five-digit literals, then the register address $2100. *)
Definition eleven_addresses : string :=
  "$10001 $10002 $10003 $10004 $10005 $10006 $10007 $10008 $10009 $1000A $2100".

(** What the address pattern captures: four to six hexadecimal digits. *)
Definition is_address_digits (d : string) : bool :=
  forallb is_hex_digit (list_ascii_of_string d)
  && (4 <=? String.length d)%nat && (String.length d <=? 6)%nat.

Definition is_returns {A} (o : outcome A) : bool :=
  match o with
  | Returns _ => true
  | Raises _ => false
  end.


Definition all_hex (s : string) : bool :=
  forallb is_hex_digit (list_ascii_of_string s).

(** An entry of the instruction table is filed under its own mnemonic,
    which is one of the alternatives of the instruction pattern, is not
    empty, and can be formatted by the report. *)
Definition instruction_entry_ok (entry : string * Item) : bool :=
  bool_decide (entry.2 !! "mnemonic" = Some (VStr entry.1))
  && bool_decide (entry.1 ∈ mnemonics)
  && String.eqb (upper entry.1) entry.1
  && nonempty_dict entry.2
  && is_returns (format_instruction entry.2).

(** ASCII text: every character is below 128.  On such text the
    characters are the bytes, and [len], [find], [lower], [upper] and the
    word boundary of the patterns are what Python computes. *)
Definition is_ascii_char (c : ascii) : bool := (char_code c <? 128)%N.

Definition is_ascii (s : string) : bool :=
  forallb is_ascii_char (list_ascii_of_string s).


(** The statement each retrieval sends for a keyword set. *)
Definition mods_statement (keywords : list string) : cypher :=
  match infer_mod_types keywords with
  | _ :: _ => ModsOfTypes (infer_mod_types keywords)
  | [] => ModsSample
  end.

Definition registers_statement (keywords : list string) : cypher :=
  match infer_category keywords with
  | Some category => RegistersOfCategory category
  | None => RegistersSample
  end.

Definition components_statement (keywords : list string) : cypher :=
  match infer_component_names keywords with
  | _ :: _ => ComponentsNamed (infer_component_names keywords)
  | [] => ComponentsSample
  end.

Definition knowledge_statement (keywords : list string) : cypher :=
  KnowledgeMatching keywords.

(** The statements of one call of [build_context], in the order in which
    they are sent. *)
Definition statements (keywords : list string) : list cypher :=
  [ mods_statement keywords; registers_statement keywords;
    components_statement keywords; knowledge_statement keywords ].

(** The record the memory map returns for the address $2100. *)
Definition inidisp_record : Item :=
  hardware_register "2100" "INIDISP"
    "Screen Display Register - Controls brightness and forced blank"
    "ppu" "Write".

(** The lines the report prints for the address $2100. *)
Definition inidisp_lines : list string :=
  [ newline +:+ "**$2100** - INIDISP";
    "  Screen Display Register - Controls brightness and forced blank";
    "  Type: I/O, Access: Write" ].

(** A store whose knowledge statement fails while the others answer. *)
Definition knowledge_failing_session : Session :=
  fun q => match q with
           | KnowledgeMatching _ => Raises Neo4jError
           | _ => graph_session sample_graph q
           end.

(** ** Strings: what [in] and [find] compute *)

Lemma prefix_append (s t : string) : String.prefix s (s +:+ t) = true.
Proof.
  induction s as [|c s IH]; simpl.
  - by destruct t.
  - destruct (ascii_dec c c); [apply IH | done].
Qed.

Lemma prefix_split (s t : string) :
  String.prefix s t = true -> exists rest, t = s +:+ rest.
Proof.
  revert t. induction s as [|c s IH]; intros t Ht.
  - by exists t.
  - destruct t as [|d t]; simpl in Ht; [done|].
    destruct (ascii_dec c d) as [->|]; [|done].
    destruct (IH _ Ht) as [rest ->]. by exists rest.
Qed.

Lemma find_from_unfold (sub s : string) (i : nat) :
  find_from sub s i =
  if String.prefix sub s then Some i
  else match s with
       | EmptyString => None
       | String _ s' => find_from sub s' (S i)
       end.
Proof. by destruct s. Qed.

Lemma find_from_append (sub a b : string) (i : nat) :
  exists j, find_from sub (a +:+ sub +:+ b) i = Some j.
Proof.
  revert i. induction a as [|c a IH]; intros i.
  - change ("" +:+ sub +:+ b) with (sub +:+ b).
    rewrite find_from_unfold, prefix_append. eauto.
  - change (String c a +:+ sub +:+ b) with (String c (a +:+ sub +:+ b)).
    rewrite find_from_unfold.
    destruct (String.prefix sub (String c (a +:+ sub +:+ b))); eauto.
Qed.

Lemma find_from_split (sub s : string) (i j : nat) :
  find_from sub s i = Some j ->
  exists a b, s = a +:+ sub +:+ b /\ j = (i + String.length a)%nat.
Proof.
  revert i. induction s as [|c s IH]; intros i; rewrite find_from_unfold.
  - destruct (String.prefix sub "") eqn:E; [|done].
    intros [= <-]. destruct (prefix_split _ _ E) as [rest Hrest].
    exists "", rest. split; [done | simpl; lia].
  - destruct (String.prefix sub (String c s)) eqn:E.
    + intros [= <-]. destruct (prefix_split _ _ E) as [rest Hrest].
      exists "", rest. split; [done | simpl; lia].
    + intros Hj. destruct (IH _ Hj) as (a & b & -> & ->).
      exists (String c a), b. split; [done | simpl; lia].
Qed.

(** [sub in s] holds exactly when [s] is some text, then [sub], then some
    text. *)
Lemma str_in_spec (sub s : string) :
  str_in sub s = true <-> exists a b, s = a +:+ sub +:+ b.
Proof.
  unfold str_in. split.
  - destruct (find_from sub s 0) as [j|] eqn:E; [|done].
    intros _. destruct (find_from_split _ _ _ _ E) as (a & b & -> & _). eauto.
  - intros (a & b & ->).
    destruct (find_from_append sub a b 0) as [j ->]. done.
Qed.

Lemma str_find_nonneg (sub s : string) :
  str_in sub s = true -> 0 <= str_find sub s.
Proof.
  unfold str_in, str_find. destruct (find_from sub s 0); [lia | done].
Qed.

Lemma append_cons (x : ascii) (a b : string) :
  String x a +:+ b = String x (a +:+ b).
Proof. reflexivity. Qed.

Lemma append_assoc (a b c : string) : (a +:+ b) +:+ c = a +:+ b +:+ c.
Proof.
  induction a as [|x a IH]; [done|]. by rewrite !append_cons, IH.
Qed.

Lemma append_empty_r (a : string) : a +:+ "" = a.
Proof.
  induction a as [|x a IH]; [done|]. by rewrite append_cons, IH.
Qed.

Lemma str_in_join (sep x : string) (l : list string) :
  x ∈ l -> str_in x (join sep l) = true.
Proof.
  intros Hx. apply str_in_spec.
  induction l as [|y l IH]; [by apply elem_of_nil in Hx|].
  apply elem_of_cons in Hx as [->|Hx].
  - destruct l as [|z l]; simpl.
    + exists "", "". by rewrite append_empty_r.
    + exists "", (sep +:+ join sep (z :: l)). done.
  - destruct (IH Hx) as (a & b & E).
    destruct l as [|z l]; [by apply elem_of_nil in Hx|].
    exists (y +:+ sep +:+ a), b.
    change (join sep (y :: z :: l)) with (y +:+ sep +:+ join sep (z :: l)).
    rewrite E. by rewrite !append_assoc.
Qed.

(** ** Reading off a computed outcome *)

Lemma returns_nonempty {A} (o : outcome (list A)) :
  match o with Returns (_ :: _) => true | _ => false end = true ->
  exists found, o = Returns found /\ found <> [].
Proof. destruct o as [[|a l]|e]; try discriminate. intros _. by eexists. Qed.

Lemma returns_length {A} (o : outcome (list A)) (n : nat) :
  match o with Returns l => Nat.eqb (length l) n | _ => false end = true ->
  exists l, o = Returns l /\ length l = n.
Proof.
  destruct o as [l|e]; try discriminate.
  intros Hn%Nat.eqb_eq. by eexists.
Qed.

(** ** The relevance score *)

Lemma ones_sum {A} (l : list A) :
  foldr Z.add 0 ((fun _ => 1) <$> l) = Z.of_nat (length l).
Proof.
  induction l as [|x l IH]; [done|].
  rewrite fmap_cons, foldr_cons, IH, length_cons. lia.
Qed.

Lemma count_matches_closed (text : string) (keywords : list string) :
  count_matches text keywords = keyword_hit_count text keywords.
Proof. apply ones_sum. Qed.

Lemma position_bonus_closed (text : string) (keywords : list string) :
  position_bonus text keywords = first_hit_bonus text keywords.
Proof.
  unfold first_hit_bonus.
  induction keywords as [|kw rest IH]; simpl; [done|].
  destruct (str_in kw text); simpl; [|exact IH].
  destruct (str_find kw text <? 50) eqn:E50.
  - assert ((str_find kw text <? 100) = true) as -> by lia. by rewrite E50.
  - destruct (str_find kw text <? 100) eqn:E100; [by rewrite E50 | exact IH].
Qed.

Lemma first_hit_bonus_range (text : string) (keywords : list string) :
  0 <= first_hit_bonus text keywords <= 3.
Proof.
  unfold first_hit_bonus.
  destruct (List.find _ keywords) as [kw|]; [|lia].
  destruct (str_find kw text <? 50); lia.
Qed.

Lemma richness_range (text : string) : 0 <= richness text <= 2.
Proof.
  unfold richness. destruct (len text >? 100), (len text >? 50); lia.
Qed.

Lemma score_of_text_closed (text query_lower : string) (keywords : list string) :
  score_of_text text query_lower keywords =
  Z.min (2 * keyword_hit_count text keywords) 10
  + (if str_in query_lower text then 5 else 0)
  + first_hit_bonus text keywords
  + richness text.
Proof.
  unfold score_of_text, richness.
  rewrite count_matches_closed, position_bonus_closed.
  destruct (str_in query_lower text), (len text >? 100), (len text >? 50); lia.
Qed.

Lemma text_part_string (item : Item) (key : string) :
  match item !! key with
  | None | Some (VStr _) => true
  | Some _ => false
  end = true ->
  text_part item key =
  Returns (match item !! key with
           | Some (VStr s) => lower s +:+ " "
           | _ => ""
           end).
Proof. unfold text_part. destruct (item !! key) as [[]|]; done. Qed.

Lemma searchable_text_strings (item : Item) :
  text_fields_are_strings item = true ->
  searchable_text item = Returns (text_of item).
Proof.
  unfold text_fields_are_strings, text_keys. simpl.
  rewrite !andb_true_iff. intros (Hn & Hd & Ht & Hc & _).
  unfold searchable_text.
  rewrite (text_part_string _ _ Hn), (text_part_string _ _ Hd),
    (text_part_string _ _ Ht), (text_part_string _ _ Hc).
  reflexivity.
Qed.

Lemma searchable_text_raises (item : Item) :
  text_fields_are_strings item = false ->
  searchable_text item = Raises AttributeError.
Proof.
  unfold text_fields_are_strings, text_keys, searchable_text, text_part.
  simpl.
  destruct (item !! "name") as [[]|]; simpl; try done;
  destruct (item !! "description") as [[]|]; simpl; try done;
  destruct (item !! "topic") as [[]|]; simpl; try done;
  destruct (item !! "content") as [[]|]; simpl; done.
Qed.

Lemma calculate_relevance_score_strings (item : Item) (query : string)
    (keywords : list string) :
  text_fields_are_strings item = true ->
  calculate_relevance_score item query keywords =
  Returns (score_of_text (text_of item) (lower query) keywords).
Proof.
  intros Hitem. unfold calculate_relevance_score.
  by rewrite (searchable_text_strings _ Hitem).
Qed.

Lemma keyword_bonus_range (text : string) (keywords : list string) :
  0 <= Z.min (2 * keyword_hit_count text keywords) 10 <= 10.
Proof. unfold keyword_hit_count. lia. Qed.

Lemma score_of_text_range (text query_lower : string) (keywords : list string) :
  0 <= score_of_text text query_lower keywords <= 20.
Proof.
  rewrite score_of_text_closed.
  pose proof (keyword_bonus_range text keywords).
  pose proof (first_hit_bonus_range text keywords).
  pose proof (richness_range text).
  destruct (str_in query_lower text); lia.
Qed.

(** Whatever the record, a score that is returned lies in the range. *)
Lemma returned_score_range (item : Item) (query : string)
    (keywords : list string) (score : Z) :
  calculate_relevance_score item query keywords = Returns score ->
  0 <= score <= 20.
Proof.
  unfold calculate_relevance_score.
  destruct (searchable_text item) as [text|e]; simpl; [|done].
  intros [= <-]. apply score_of_text_range.
Qed.





(** C10: for a record whose text fields hold strings the score is returned
    and lies in the closed interval from 0 to 20. *)
Theorem C10_score_range (item : Item) (query : string) (keywords : list string) :
  text_fields_are_strings item = true ->
  exists score,
    calculate_relevance_score item query keywords = Returns score
    /\ 0 <= score <= 20.
Proof.
  intros Hitem. eexists. split.
  - apply (calculate_relevance_score_strings _ _ _ Hitem).
  - apply score_of_text_range.
Qed.

Lemma C10_score_range_witness :
  text_fields_are_strings late_hit_item = true
  /\ exists score,
       calculate_relevance_score late_hit_item "zelda" ["dma"; "ppu"] = Returns score
       /\ 0 <= score <= 20.
Proof.
  split; [reflexivity|].
  apply (C10_score_range late_hit_item "zelda" ["dma"; "ppu"]). reflexivity.
Defined.

(** ** Reranking *)

Lemma insert_by_score_perm (x : Z * Item) (l : list (Z * Item)) : insert_by_score x l ≡ₚ x :: l.
Proof.
  induction l as [|y l IH]; simpl; [done|].
  destruct (y.1 <=? x.1); [done|].
  rewrite IH. apply Permutation_swap.
Qed.

Lemma sort_by_score_perm (l : list (Z * Item)) : sort_by_score l ≡ₚ l.
Proof.
  induction l as [|x l IH]; simpl; [done|].
  rewrite insert_by_score_perm. by rewrite IH.
Qed.

Lemma insert_by_score_sorted (x : Z * Item) (l : list (Z * Item)) :
  StronglySorted by_score_desc l ->
  StronglySorted by_score_desc (insert_by_score x l).
Proof.
  induction 1 as [|y l Hl IH Hy]; simpl.
  - repeat constructor.
  - destruct (y.1 <=? x.1) eqn:E.
    + constructor; [by constructor|].
      constructor; [unfold by_score_desc; lia|].
      eapply Forall_impl; [exact Hy|].
      unfold by_score_desc. intros z Hz. lia.
    + constructor; [exact IH|].
      rewrite insert_by_score_perm.
      constructor; [unfold by_score_desc; lia | exact Hy].
Qed.

Lemma sort_by_score_sorted (l : list (Z * Item)) : StronglySorted by_score_desc (sort_by_score l).
Proof.
  induction l as [|x l IH]; simpl; [constructor|].
  by apply insert_by_score_sorted.
Qed.

(** Inserting leaves the entries of any one score in their order. *)
Lemma insert_by_score_stable (s : Z) (x : Z * Item) (l : list (Z * Item)) :
  filter (fun p => p.1 = s) (insert_by_score x l)
  = filter (fun p => p.1 = s) (x :: l).
Proof.
  induction l as [|y l IH]; simpl; [done|].
  destruct (y.1 <=? x.1) eqn:E; [done|].
  rewrite (filter_cons _ y), IH, !filter_cons.
  repeat case_decide; try done; lia.
Qed.

Lemma sort_by_score_stable (s : Z) (l : list (Z * Item)) :
  filter (fun p => p.1 = s) (sort_by_score l) = filter (fun p => p.1 = s) l.
Proof.
  induction l as [|x l IH]; simpl; [done|].
  rewrite insert_by_score_stable, !filter_cons, IH. done.
Qed.

Lemma score_items_filter (all_items : list Item) (query : string)
    (keywords : list string) (scores : list Z) :
  for_each (fun item => calculate_relevance_score item query keywords)
    all_items = Returns scores ->
  score_items all_items query keywords
  = Returns (filter (fun p => 0 < p.1) (zip scores all_items)).
Proof.
  revert scores. induction all_items as [|item rest IH]; intros scores; simpl.
  - by intros [= <-].
  - destruct (calculate_relevance_score item query keywords) as [s|e];
      simpl; [|done].
    destruct (for_each _ rest) as [ss|e]; simpl; [|done].
    intros [= <-]. rewrite (IH ss eq_refl). simpl.
    rewrite filter_cons. simpl.
    case_decide; destruct (s >? 0) eqn:E; try done; lia.
Qed.

Lemma slice_to_nonneg {A} (n : Z) (l : list A) :
  0 <= n -> slice_to n l = take (Z.to_nat n) l.
Proof. intros Hn. unfold slice_to. by destruct (0 <=? n) eqn:E; [|lia]. Qed.

(** C3, as stated, fails for a negative bound: [scored_items[:-1]] drops
    only the last entry, so two of three candidates are returned although
    the bound is -1. *)
Lemma C3_counterexample :
  exists result,
    rerank_results magic_items "magic" ["magic"] (-1) = Returns result
    /\ length result = 2%nat
    /\ ~ (Z.of_nat (length result) <= -1).
Proof.
  destruct (returns_length
              (rerank_results magic_items "magic" ["magic"] (-1)) 2)
    as (result & Hresult & Hlen); [vm_compute; reflexivity|].
  exists result. rewrite Hlen. split; [done|]. split; [done | simpl; lia].
Qed.

(** C3, amended: for a bound that is not negative, reranking keeps exactly
    the candidates with a positive score, orders them by score, highest
    first, leaving candidates of equal score in the order of the merged
    list, and returns the first [max_items] of them. *)
Theorem C3_rerank_filter_sort_truncate (all_items : list Item) (query : string)
    (keywords : list string) (max_items : Z) (scores : list Z) :
  0 <= max_items ->
  for_each (fun item => calculate_relevance_score item query keywords)
    all_items = Returns scores ->
  exists ranked : list (Z * Item),
    rerank_results all_items query keywords max_items
    = Returns ((take (Z.to_nat max_items) ranked).*2)
    /\ ranked ≡ₚ filter (fun p => 0 < p.1) (zip scores all_items)
    /\ StronglySorted by_score_desc ranked
    /\ (forall s, filter (fun p => p.1 = s) ranked
                  = filter (fun p => p.1 = s)
                      (filter (fun p => 0 < p.1) (zip scores all_items)))
    /\ Z.of_nat (length ((take (Z.to_nat max_items) ranked).*2)) <= max_items
    /\ Forall (fun p => 0 < p.1) (take (Z.to_nat max_items) ranked).
Proof.
  intros Hmax Hscores.
  set (positive := filter (fun p => 0 < p.1) (zip scores all_items)).
  exists (sort_by_score positive). repeat split.
  - unfold rerank_results.
    rewrite (score_items_filter _ _ _ _ Hscores). simpl.
    by rewrite slice_to_nonneg.
  - apply sort_by_score_perm.
  - apply sort_by_score_sorted.
  - intros s. apply sort_by_score_stable.
  - rewrite length_fmap, length_take. lia.
  - apply Forall_take. rewrite sort_by_score_perm.
    apply Forall_forall. intros p Hp.
    by apply list_elem_of_filter in Hp as [Hp _].
Qed.

Lemma C3_rerank_filter_sort_truncate_witness :
  0 <= 2
  /\ for_each (fun item => calculate_relevance_score item "magic" ["magic"])
       magic_items = Returns [10; 10; 10]
  /\ exists ranked : list (Z * Item),
       rerank_results magic_items "magic" ["magic"] 2
       = Returns ((take (Z.to_nat 2) ranked).*2)
       /\ ranked ≡ₚ filter (fun p => 0 < p.1) (zip [10; 10; 10] magic_items)
       /\ StronglySorted by_score_desc ranked
       /\ (forall s, filter (fun p => p.1 = s) ranked
                     = filter (fun p => p.1 = s)
                         (filter (fun p => 0 < p.1) (zip [10; 10; 10] magic_items)))
       /\ Z.of_nat (length ((take (Z.to_nat 2) ranked).*2)) <= 2
       /\ Forall (fun p => 0 < p.1) (take (Z.to_nat 2) ranked).
Proof.
  split; [lia|]. split; [reflexivity|].
  apply (C3_rerank_filter_sort_truncate magic_items "magic" ["magic"] 2
           [10; 10; 10]); [lia | reflexivity].
Defined.

(** ** Retrieval bounds *)

(** C5, as stated, fails: a filtered mod or component retrieval has no cap
    (six records come back), and the register fallback returns five
    records, not three. *)
Lemma C5_counterexample :
  (infer_mod_types ["magic"] = ["magic"]
   /\ exists l, get_relevant_mods crowded_pipeline ["magic"] = Returns l
                /\ length l = 6%nat)
  /\ (infer_category ["memory"] = None
      /\ exists l, get_relevant_registers crowded_pipeline ["memory"] = Returns l
                   /\ length l = 5%nat)
  /\ (infer_component_names ["player"] = ["player"]
      /\ exists l, get_relevant_components crowded_pipeline ["player"] = Returns l
                   /\ length l = 6%nat).
Proof.
  repeat split;
    first [ apply returns_length; vm_compute; reflexivity
          | vm_compute; reflexivity ].
Qed.

(** C5, amended: on a store that answers, the mod and the component
    retrievals return at most 3 records when no filter is inferred and every
    matching record when one is; the register retrieval returns at most 5
    records with or without a filter. *)
Theorem C5_retrieval_bounds (g : Graph) (keywords : list string) :
  let self := {| driver := Some (graph_session g) |} in
  (exists l, get_relevant_mods self keywords = Returns l
             /\ match infer_mod_types keywords with
                | [] => (length l <= 3)%nat
                | types =>
                    l = mod_record <$>
                          group_mods (filter (fun m => mod_type m ∈ types)
                                        (mod_nodes g))
                end)
  /\ (exists l, get_relevant_registers self keywords = Returns l
                /\ (length l <= 5)%nat)
  /\ (exists l, get_relevant_components self keywords = Returns l
                /\ match infer_component_names keywords with
                   | [] => (length l <= 3)%nat
                   | names =>
                       l = component_record <$>
                             filter (fun c => comp_name c ∈ names)
                               (component_nodes g)
                   end).
Proof.
  simpl. repeat split.
  - unfold get_relevant_mods. simpl.
    destruct (infer_mod_types keywords) as [|t types]; eexists;
      (split; [reflexivity|]); [|done].
    unfold run_cypher. rewrite length_fmap, length_take. lia.
  - unfold get_relevant_registers. simpl.
    destruct (infer_category keywords); eexists; (split; [reflexivity|]);
      unfold run_cypher; rewrite length_fmap, length_take; lia.
  - unfold get_relevant_components. simpl.
    destruct (infer_component_names keywords) as [|n names]; eexists;
      (split; [reflexivity|]); [|done].
    unfold run_cypher. rewrite length_fmap, length_take. lia.
Qed.

(** ** Keyword extraction *)

Lemma set_iter_nil `{SetOrder} (l : list string) : set_iter l = [] <-> l = [].
Proof.
  split.
  - intros E. destruct l as [|x l]; [done|].
    assert (x ∈ set_iter (x :: l)) as Hx by (apply set_iter_elem; left).
    rewrite E in Hx. by apply elem_of_nil in Hx.
  - intros ->. destruct (set_iter []) as [|x l] eqn:E; [done|].
    assert (x ∈ @nil string) as Hx by (apply set_iter_elem; rewrite E; left).
    by apply elem_of_nil in Hx.
Qed.

(** The keyword set is empty exactly when no phrase of the vocabulary
    occurs in the lowercased query. *)
Lemma extract_keywords_empty_iff `{SetOrder} (query : string) :
  extract_keywords query = []
  <-> forall phrase, phrase ∈ all_keywords -> str_in phrase (lower query) = false.
Proof.
  unfold extract_keywords. rewrite set_iter_nil.
  assert (normalize <$> keyword_hits query = [] <-> keyword_hits query = [])
    as -> by (split; [apply fmap_nil_inv | by intros ->]).
  unfold keyword_hits. split.
  - intros E phrase Hphrase.
    destruct (str_in phrase (lower query)) eqn:Hin; [|done].
    assert (phrase ∈ filter (fun keyword => str_in keyword (lower query))
                       all_keywords) as Hf.
    { apply list_elem_of_filter. split; [by rewrite Hin | done]. }
    rewrite E in Hf. by apply elem_of_nil in Hf.
  - intros Hnone.
    destruct (filter _ all_keywords) as [|k l] eqn:E; [done|].
    assert (k ∈ filter (fun keyword => str_in keyword (lower query))
                  all_keywords) as Hk by (rewrite E; left).
    apply list_elem_of_filter in Hk as [Hin Hk].
    rewrite (Hnone _ Hk) in Hin. done.
Qed.

Lemma build_context_no_keywords `{SetOrder} (mcp : option McpClient)
    (self : SNESRAGPipeline) (query : string) (max_items : Z) :
  extract_keywords query = [] ->
  build_context mcp self query max_items = Returns "".
Proof.
  intros E. unfold build_context.
  destruct (negb (is_available self)); [done|]. by rewrite E.
Qed.

(** C6: a query from which no keyword is extracted, that is, one in whose
    lowercased text no phrase of the vocabulary occurs, yields the empty
    context. *)
Theorem C6_no_keyword_empty_context `{SetOrder} (mcp : option McpClient)
    (self : SNESRAGPipeline) (query : string) (max_items : Z) :
  extract_keywords query = [] ->
  (forall phrase, phrase ∈ all_keywords -> str_in phrase (lower query) = false)
  /\ build_context mcp self query max_items = Returns "".
Proof.
  intros E. split.
  - by apply extract_keywords_empty_iff.
  - by apply build_context_no_keywords.
Qed.

Lemma C6_no_keyword_empty_context_witness :
  @extract_keywords insertion_order "hello world" = []
  /\ (forall phrase, phrase ∈ all_keywords ->
                     str_in phrase (lower "hello world") = false)
  /\ @build_context insertion_order (Some mcp_client) sample_pipeline
       "hello world" 10 = Returns "".
Proof.
  split; [reflexivity|].
  apply (@C6_no_keyword_empty_context insertion_order (Some mcp_client)
           sample_pipeline "hello world" 10).
  reflexivity.
Defined.



(** ** The outcome of a sequence of steps *)

Lemma bind_returns {A B} (m : outcome A) (k : A -> outcome B) (b : B) :
  bind m k = Returns b -> exists a, m = Returns a /\ k a = Returns b.
Proof. destruct m as [a|e]; simpl; [eauto | done]. Qed.

Lemma bind_raises {A B} (m : outcome A) (k : A -> outcome B) (e : exn) :
  m = Raises e -> bind m k = Raises e.
Proof. by intros ->. Qed.

(** ** Same store, same lookups, same context *)

Lemma retrieve_candidates_same (a b : SNESRAGPipeline) (keywords : list string) :
  same_store a b ->
  retrieve_candidates a keywords = retrieve_candidates b keywords.
Proof.
  unfold same_store, retrieve_candidates, get_relevant_mods,
    get_relevant_registers, get_relevant_components, get_relevant_knowledge.
  destruct (driver a) as [sa|], (driver b) as [sb|]; try done.
  intros Hsame.
  destruct (infer_mod_types keywords), (infer_category keywords),
    (infer_component_names keywords); by rewrite !Hsame.
Qed.

Lemma is_available_same (a b : SNESRAGPipeline) :
  same_store a b -> is_available a = is_available b.
Proof.
  unfold same_store, is_available.
  by destruct (driver a), (driver b).
Qed.

Lemma lookup_all_same (f g : string -> outcome (option Item)) (l : list string) :
  (forall n, f n = g n) -> lookup_all f l = lookup_all g l.
Proof.
  intros Hfg. induction l as [|n l IH]; simpl; [done|].
  by rewrite Hfg, IH.
Qed.

Lemma detect_instructions_same `{SetOrder} (a b : option McpClient)
    (query : string) :
  same_lookups a b ->
  detect_and_explain_instructions a query
  = detect_and_explain_instructions b query.
Proof.
  unfold same_lookups, detect_and_explain_instructions.
  destruct a as [ca|], b as [cb|]; try done. intros [Hi _].
  destruct (instruction_findall (upper query)); [done|].
  by apply lookup_all_same.
Qed.

Lemma detect_addresses_same `{SetOrder} (a b : option McpClient)
    (query : string) :
  same_lookups a b ->
  detect_and_explain_addresses a query = detect_and_explain_addresses b query.
Proof.
  unfold same_lookups, detect_and_explain_addresses.
  destruct a as [ca|], b as [cb|]; try done. intros [_ Hm].
  destruct (address_findall query); [done|].
  apply lookup_all_same. intros addr. apply Hm.
Qed.

Lemma enrichment_sections_same `{SetOrder} (a b : option McpClient)
    (query : string) :
  same_lookups a b ->
  enrichment_sections a query = enrichment_sections b query.
Proof.
  intros Hsame. unfold enrichment_sections.
  rewrite (detect_instructions_same a b query Hsame),
    (detect_addresses_same a b query Hsame).
  by destruct a, b.
Qed.

Lemma footer_line_same `{SetOrder} (a b : option McpClient) (query : string)
    (n : Z) :
  same_lookups a b -> footer_line a query n = footer_line b query n.
Proof.
  intros Hsame. unfold footer_line.
  rewrite (detect_instructions_same a b query Hsame),
    (detect_addresses_same a b query Hsame).
  by destruct a, b.
Qed.

Lemma build_context_same `{SetOrder} (mcp1 mcp2 : option McpClient)
    (self1 self2 : SNESRAGPipeline) (query : string) (max_items : Z) :
  same_store self1 self2 ->
  same_lookups mcp1 mcp2 ->
  build_context mcp1 self1 query max_items
  = build_context mcp2 self2 query max_items.
Proof.
  intros Hstore Hlookups. unfold build_context.
  rewrite (is_available_same _ _ Hstore).
  rewrite (retrieve_candidates_same _ _ _ Hstore).
  rewrite (enrichment_sections_same _ _ _ Hlookups).
  destruct (negb (is_available self2)); [done|].
  destruct (extract_keywords query) as [|k ks]; [done|].
  destruct (retrieve_candidates self2 (k :: ks)) as [[|i items]|e];
    simpl; try done.
  destruct (rerank_results _ _ _ _) as [[|r ranked]|e]; simpl; try done.
  destruct (family_sections _) as [family|e]; simpl; [|done].
  destruct (enrichment_sections mcp2 query) as [extra|e]; simpl; [|done].
  destruct (family ++ extra); [done|].
  by rewrite (footer_line_same _ _ _ _ Hlookups).
Qed.

(** ** Two iteration orders of the same sets *)

Lemma set_iter_length (o : SetOrder) (l : list string) :
  length (@set_iter o l) = length (remove_dups l).
Proof.
  apply Permutation_length, NoDup_Permutation.
  - apply set_iter_NoDup.
  - apply NoDup_remove_dups.
  - intros x. by rewrite set_iter_elem, elem_of_remove_dups.
Qed.

(** A set of at most one element is iterated in one way only. *)
Lemma set_iter_order_free (o1 o2 : SetOrder) (l : list string) :
  (length (remove_dups l) <= 1)%nat -> @set_iter o1 l = @set_iter o2 l.
Proof.
  intros Hlen.
  pose proof (set_iter_length o1 l) as H1.
  pose proof (set_iter_length o2 l) as H2.
  pose proof (@set_iter_elem o1 l) as E1.
  pose proof (@set_iter_elem o2 l) as E2.
  destruct (@set_iter o1 l) as [|x [|x' l1]], (@set_iter o2 l) as [|y [|y' l2]];
    simpl in *; try lia; [done|].
  assert (x ∈ [y]) as Hx by (apply E2, E1; left).
  apply list_elem_of_singleton in Hx. by subst.
Qed.

Lemma extract_keywords_order_free (o1 o2 : SetOrder) (query : string) :
  (length (@extract_keywords o1 query) <= 1)%nat ->
  @extract_keywords o1 query = @extract_keywords o2 query.
Proof.
  unfold extract_keywords. rewrite set_iter_length.
  apply set_iter_order_free.
Qed.

Lemma detect_instructions_order_free (o1 o2 : SetOrder)
    (mcp : option McpClient) (query : string) :
  (length (remove_dups (instruction_findall (upper query))) <= 1)%nat ->
  @detect_and_explain_instructions o1 mcp query
  = @detect_and_explain_instructions o2 mcp query.
Proof.
  intros Hlen. unfold detect_and_explain_instructions.
  by rewrite (set_iter_order_free o1 o2 _ Hlen).
Qed.

Lemma detect_addresses_order_free (o1 o2 : SetOrder)
    (mcp : option McpClient) (query : string) :
  (length (remove_dups (address_findall query)) <= 1)%nat ->
  @detect_and_explain_addresses o1 mcp query
  = @detect_and_explain_addresses o2 mcp query.
Proof.
  intros Hlen. unfold detect_and_explain_addresses.
  by rewrite (set_iter_order_free o1 o2 _ Hlen).
Qed.

Lemma build_context_order_free (o1 o2 : SetOrder) (mcp : option McpClient)
    (self : SNESRAGPipeline) (query : string) (max_items : Z) :
  (length (@extract_keywords o1 query) <= 1)%nat ->
  (length (remove_dups (instruction_findall (upper query))) <= 1)%nat ->
  (length (remove_dups (address_findall query)) <= 1)%nat ->
  @build_context o1 mcp self query max_items
  = @build_context o2 mcp self query max_items.
Proof.
  intros Hk Hi Ha.
  unfold build_context, enrichment_sections, footer_line.
  rewrite (extract_keywords_order_free o1 o2 query Hk).
  rewrite (detect_instructions_order_free o1 o2 mcp query Hi).
  rewrite (detect_addresses_order_free o1 o2 mcp query Ha).
  reflexivity.
Qed.

Lemma first_hit_bonus_values (text : string) (keywords : list string) :
  first_hit_bonus text keywords = 0
  \/ first_hit_bonus text keywords = 2
  \/ first_hit_bonus text keywords = 3.
Proof.
  unfold first_hit_bonus.
  destruct (List.find _ keywords) as [kw|]; [|by left].
  destruct (str_find kw text <? 50); auto.
Qed.

Lemma first_hit_bonus_zero (text : string) (keywords : list string) :
  first_hit_bonus text keywords = 0
  <-> forall kw, kw ∈ keywords ->
                 str_in kw text && (str_find kw text <? 100) = false.
Proof.
  unfold first_hit_bonus. split.
  - destruct (List.find _ keywords) as [kw|] eqn:E.
    + destruct (str_find kw text <? 50); discriminate.
    + intros _ kw Hkw. apply list_elem_of_In in Hkw.
      exact (find_none _ _ E kw Hkw).
  - intros Hnone. destruct (List.find _ keywords) as [kw|] eqn:E; [|done].
    apply find_some in E as [Hkw Hhit]. apply list_elem_of_In in Hkw.
    by rewrite (Hnone kw Hkw) in Hhit.
Qed.

(** Two iteration orders of one keyword set give scores that differ by at
    most one: only the positional bonus can change, between 2 and 3. *)
Lemma score_of_text_permutation (text query_lower : string)
    (l1 l2 : list string) :
  l1 ≡ₚ l2 ->
  -1 <= score_of_text text query_lower l1 - score_of_text text query_lower l2
     <= 1.
Proof.
  intros Hperm. rewrite !score_of_text_closed.
  assert (keyword_hit_count text l1 = keyword_hit_count text l2) as ->.
  { unfold keyword_hit_count. by rewrite Hperm. }
  assert (first_hit_bonus text l1 = 0 <-> first_hit_bonus text l2 = 0) as Hzero.
  { rewrite !first_hit_bonus_zero.
    split; intros Hnone kw Hkw; apply Hnone; [by rewrite Hperm | by rewrite <- Hperm]. }
  destruct (first_hit_bonus_values text l1) as [H1|[H1|H1]],
    (first_hit_bonus_values text l2) as [H2|[H2|H2]];
    rewrite ?H1, ?H2 in *; try lia;
    first [ assert (2 = 0) by (by apply Hzero); lia
          | assert (3 = 0) by (by apply Hzero); lia
          | assert (0 = 2) by (by symmetry; apply Hzero); lia
          | assert (0 = 3) by (by symmetry; apply Hzero); lia
          | idtac ].
Qed.

(** C7, as stated, fails: the order in which Python iterates a set of
    strings is not fixed by the query and the store.  With the same query,
    the same store and the same lookups, the two detected instructions are
    listed in either order; and for one keyword set, iterated as "dma",
    "ppu" or as "ppu", "dma", the score of the same record is 7 or 8. *)
Lemma C7_counterexample :
  (exists first second,
     @build_context insertion_order (Some mcp_client) sample_pipeline
       "magic LDA STA" 10 = Returns first
     /\ @build_context reverse_insertion_order (Some mcp_client)
          sample_pipeline "magic LDA STA" 10 = Returns second
     /\ first <> second)
  /\ ["dma"; "ppu"] ≡ₚ ["ppu"; "dma"]
  /\ calculate_relevance_score late_hit_item "zelda" ["dma"; "ppu"] = Returns 7
  /\ calculate_relevance_score late_hit_item "zelda" ["ppu"; "dma"] = Returns 8.
Proof.
  split; [|split; [apply Permutation_swap | split; vm_compute; reflexivity]].
  exists (match @build_context insertion_order (Some mcp_client)
                  sample_pipeline "magic LDA STA" 10 with
          | Returns out => out
          | Raises _ => ""
          end),
         (match @build_context reverse_insertion_order (Some mcp_client)
                  sample_pipeline "magic LDA STA" 10 with
          | Returns out => out
          | Raises _ => ""
          end).
  split; [vm_compute; reflexivity|]. split; [vm_compute; reflexivity|].
  intros E. apply String.eqb_eq in E. vm_compute in E. discriminate E.
Qed.

(** C7, amended: two calls with the same query and bound, against stores
    that answer every statement alike and lookups that answer every lookup
    alike, yield the same outcome, character for character, whatever the
    two iteration orders of the sets are, when the query yields at most one
    keyword, at most one distinct mnemonic and at most one distinct address
    literal; and the scores of one record under two iteration orders of one
    keyword set differ by at most one, and are equal when the set holds at
    most one keyword. *)
Theorem C7_same_output_across_set_orders (o1 o2 : SetOrder)
    (mcp1 mcp2 : option McpClient) (self1 self2 : SNESRAGPipeline)
    (query : string) (max_items : Z) :
  same_store self1 self2 ->
  same_lookups mcp1 mcp2 ->
  (length (@extract_keywords o1 query) <= 1)%nat ->
  (length (remove_dups (instruction_findall (upper query))) <= 1)%nat ->
  (length (remove_dups (address_findall query)) <= 1)%nat ->
  @build_context o1 mcp1 self1 query max_items
  = @build_context o2 mcp2 self2 query max_items
  /\ forall item l1 l2 s1 s2,
       l1 ≡ₚ l2 ->
       calculate_relevance_score item query l1 = Returns s1 ->
       calculate_relevance_score item query l2 = Returns s2 ->
       -1 <= s1 - s2 <= 1 /\ ((length l1 <= 1)%nat -> s1 = s2).
Proof.
  intros Hstore Hlookups Hk Hi Ha. split.
  - rewrite (build_context_same mcp1 mcp2 self1 self2 query max_items
               Hstore Hlookups).
    by apply build_context_order_free.
  - intros item l1 l2 s1 s2 Hperm.
    unfold calculate_relevance_score.
    destruct (searchable_text item) as [text|e]; simpl; [|done].
    intros [= <-] [= <-]. split.
    + by apply score_of_text_permutation.
    + intros Hlen. destruct l1 as [|k [|k' l1]]; simpl in Hlen; try lia.
      * by apply Permutation_nil_l in Hperm as ->.
      * by apply Permutation_singleton_l in Hperm as ->.
Qed.

Lemma C7_same_output_across_set_orders_witness :
  same_store sample_pipeline sample_pipeline
  /\ same_lookups (Some mcp_client) (Some mcp_client)
  /\ (length (@extract_keywords insertion_order
                 "what does LDA do at $2100") <= 1)%nat
  /\ (length (remove_dups (instruction_findall
                             (upper "what does LDA do at $2100"))) <= 1)%nat
  /\ (length (remove_dups (address_findall
                             "what does LDA do at $2100")) <= 1)%nat
  /\ @build_context insertion_order (Some mcp_client) sample_pipeline
       "what does LDA do at $2100" 10
     = @build_context reverse_insertion_order (Some mcp_client) sample_pipeline
         "what does LDA do at $2100" 10
  /\ forall item l1 l2 s1 s2,
       l1 ≡ₚ l2 ->
       calculate_relevance_score item "what does LDA do at $2100" l1
       = Returns s1 ->
       calculate_relevance_score item "what does LDA do at $2100" l2
       = Returns s2 ->
       -1 <= s1 - s2 <= 1 /\ ((length l1 <= 1)%nat -> s1 = s2).
Proof.
  assert (same_store sample_pipeline sample_pipeline) as Hstore
    by (intros q; reflexivity).
  assert (same_lookups (Some mcp_client) (Some mcp_client)) as Hlookups
    by (split; intros; reflexivity).
  assert ((length (@extract_keywords insertion_order
                     "what does LDA do at $2100") <= 1)%nat) as Hk
    by (vm_compute; lia).
  assert ((length (remove_dups (instruction_findall
             (upper "what does LDA do at $2100"))) <= 1)%nat) as Hi
    by (vm_compute; lia).
  assert ((length (remove_dups (address_findall
             "what does LDA do at $2100")) <= 1)%nat) as Ha
    by (vm_compute; lia).
  split; [exact Hstore|]. split; [exact Hlookups|].
  split; [exact Hk|]. split; [exact Hi|]. split; [exact Ha|].
  exact (C7_same_output_across_set_orders insertion_order
           reverse_insertion_order (Some mcp_client) (Some mcp_client)
           sample_pipeline sample_pipeline
           "what does LDA do at $2100" 10 Hstore Hlookups Hk Hi Ha).
Defined.

(** ** Store failures *)

(** C1, as stated, fails: a statement that raises is caught neither by the
    retrieval that sent it nor by [build_context]. *)
Lemma C1_counterexample :
  get_relevant_mods failing_pipeline ["magic"] = Raises Neo4jError
  /\ get_relevant_registers failing_pipeline ["magic"] = Raises Neo4jError
  /\ get_relevant_components failing_pipeline ["magic"] = Raises Neo4jError
  /\ get_relevant_knowledge failing_pipeline ["magic"] = Raises Neo4jError
  /\ @build_context insertion_order (Some mcp_client) failing_pipeline
       "magic" 10 = Raises Neo4jError.
Proof. repeat split; reflexivity. Qed.

Lemma retrievals_offline (keywords : list string) :
  get_relevant_mods offline_pipeline keywords = Returns []
  /\ get_relevant_registers offline_pipeline keywords = Returns []
  /\ get_relevant_components offline_pipeline keywords = Returns []
  /\ get_relevant_knowledge offline_pipeline keywords = Returns [].
Proof. repeat split; reflexivity. Qed.

Lemma retrievals_raise (session : Session) (e : exn) (keywords : list string) :
  (forall q, session q = Raises e) ->
  let self := {| driver := Some session |} in
  get_relevant_mods self keywords = Raises e
  /\ get_relevant_registers self keywords = Raises e
  /\ get_relevant_components self keywords = Raises e
  /\ get_relevant_knowledge self keywords = Raises e.
Proof.
  intros Hfail. simpl.
  unfold get_relevant_mods, get_relevant_registers, get_relevant_components,
    get_relevant_knowledge. simpl.
  destruct (infer_mod_types keywords), (infer_category keywords),
    (infer_component_names keywords); by rewrite !Hfail.
Qed.

Lemma build_context_raises `{SetOrder} (mcp : option McpClient)
    (session : Session) (e : exn) (query : string) (max_items : Z) :
  (forall q, session q = Raises e) ->
  extract_keywords query <> [] ->
  build_context mcp {| driver := Some session |} query max_items = Raises e.
Proof.
  intros Hfail Hkw. unfold build_context. simpl.
  destruct (extract_keywords query) as [|k ks]; [done|].
  unfold retrieve_candidates.
  destruct (retrievals_raise session e (k :: ks) Hfail) as [-> _]. done.
Qed.

(** ** Enrichment sections *)

Lemma build_context_nonempty `{SetOrder} (mcp : option McpClient)
    (self : SNESRAGPipeline) (query : string) (max_items : Z) (out : string) :
  build_context mcp self query max_items = Returns out ->
  out <> "" ->
  exists ranked family extra footer,
    is_available self = true
    /\ extract_keywords query <> []
    /\ ranked <> []
    /\ family_sections ranked = Returns family
    /\ enrichment_sections mcp query = Returns extra
    /\ out = join newline ([header] ++ (family ++ extra) ++ [footer]).
Proof.
  unfold build_context. intros Hout Hne.
  destruct (is_available self); simpl in Hout; [|by injection Hout as <-].
  destruct (extract_keywords query) as [|k ks] eqn:Hkw;
    [by injection Hout as <-|].
  apply bind_returns in Hout as ([|i items] & _ & Hout);
    [by injection Hout as <-|].
  apply bind_returns in Hout as ([|r ranked] & _ & Hout);
    [by injection Hout as <-|].
  apply bind_returns in Hout as (family & Hfamily & Hout).
  apply bind_returns in Hout as (extra & Hextra & Hout).
  destruct (family ++ extra) as [|p parts] eqn:Hparts;
    [by injection Hout as <-|].
  apply bind_returns in Hout as (footer & _ & Hout).
  injection Hout as <-.
  exists (r :: ranked), family, extra, footer.
  rewrite Hparts. done.
Qed.

Lemma enrichment_heading (heading : string)
    (format : Item -> outcome (list string)) (found : list Item)
    (lines : list string) :
  enrichment heading format found = Returns lines ->
  found <> [] -> heading ∈ lines.
Proof.
  unfold enrichment. destruct found as [|d found]; [done|].
  intros Hlines _.
  apply bind_returns in Hlines as (blocks & _ & Hlines).
  injection Hlines as <-. left.
Qed.

Lemma enrichment_sections_headings `{SetOrder} (mcp : option McpClient)
    (query : string) (extra : list string) :
  enrichment_sections mcp query = Returns extra ->
  (forall found, detect_and_explain_instructions mcp query = Returns found ->
                 found <> [] -> instructions_heading ∈ extra)
  /\ (forall found, detect_and_explain_addresses mcp query = Returns found ->
                    found <> [] -> addresses_heading ∈ extra).
Proof.
  unfold enrichment_sections. destruct mcp as [client|].
  - intros Hextra.
    apply bind_returns in Hextra as (instruction_help & Hi & Hextra).
    apply bind_returns in Hextra as (instruction_lines & Hil & Hextra).
    apply bind_returns in Hextra as (address_info & Ha & Hextra).
    apply bind_returns in Hextra as (address_lines & Hal & Hextra).
    injection Hextra as <-. split; intros found Hfound Hne.
    + rewrite Hi in Hfound. injection Hfound as <-.
      apply elem_of_app. left. by eapply enrichment_heading.
    + rewrite Ha in Hfound. injection Hfound as <-.
      apply elem_of_app. right. by eapply enrichment_heading.
  - intros _. split; intros found Hfound Hne; simpl in Hfound;
      by injection Hfound as <-.
Qed.

Lemma lookup_all_resolved (lookup : string -> outcome (option Item))
    (names : list string) (found : list Item) (n : string) (d : Item) :
  lookup_all lookup names = Returns found ->
  n ∈ names -> lookup n = Returns (Some d) -> nonempty_dict d = true ->
  d ∈ found.
Proof.
  revert found. induction names as [|m names IH]; intros found Hall Hn Hd Hne.
  - by apply elem_of_nil in Hn.
  - simpl in Hall.
    apply bind_returns in Hall as (info & Hinfo & Hall).
    apply bind_returns in Hall as (more & Hmore & Hall).
    injection Hall as <-.
    apply elem_of_cons in Hn as [->|Hn].
    + rewrite Hd in Hinfo. injection Hinfo as <-. rewrite Hne. left.
    + specialize (IH more Hmore Hn Hd Hne).
      destruct info as [d'|]; [|done].
      destruct (nonempty_dict d'); [by right | done].
Qed.

(** C2, as stated, fails: the detectors resolve "LDA" and "$2100", yet
    [build_context] returns the empty string, in the first case because the
    keyword set is empty, in the second because no candidate of the store
    scores above zero. *)
Lemma C2_counterexample :
  (exists found,
     @detect_and_explain_instructions insertion_order (Some mcp_client) "LDA"
     = Returns found /\ found <> [])
  /\ @build_context insertion_order (Some mcp_client) sample_pipeline "LDA" 10
     = Returns ""
  /\ (exists found,
        @detect_and_explain_addresses insertion_order (Some mcp_client) "$2100"
        = Returns found /\ found <> [])
  /\ @extract_keywords insertion_order "$2100" = ["2100"]
  /\ @build_context insertion_order (Some mcp_client) terse_pipeline "$2100" 10
     = Returns "".
Proof.
  split; [apply returns_nonempty; vm_compute; reflexivity|].
  split; [vm_compute; reflexivity|].
  split; [apply returns_nonempty; vm_compute; reflexivity|].
  split; vm_compute; reflexivity.
Qed.

(** The address detector fails on a five-digit literal in the way C8
    describes: the literal is matched, is looked up to nothing, and still
    takes one of the ten places. *)
Lemma C8_five_digit_literal_is_matched :
  address_findall "$12345" = ["12345"]
  /\ snes_memory_map "$12345" = Returns None
  /\ (exists info,
        @detect_and_explain_addresses insertion_order (Some mcp_client) "$2100"
        = Returns [info])
  /\ length (address_findall eleven_addresses) = 11%nat
  /\ "2100" ∈ address_findall eleven_addresses
  /\ @detect_and_explain_addresses insertion_order (Some mcp_client)
       eleven_addresses = Returns [].
Proof.
  split; [reflexivity|]. split; [reflexivity|].
  split; [eexists; vm_compute; reflexivity|].
  split; [reflexivity|].
  split; [vm_compute; set_solver | vm_compute; reflexivity].
Qed.

(** ** What the address detector matches *)

Lemma hex_digit_is_word (c : ascii) :
  is_hex_digit c = true -> is_word_char c = true.
Proof. destruct c as [[] [] [] [] [] [] [] []]; vm_compute; done. Qed.

Lemma non_word_not_hex (c : ascii) :
  is_word_char c = false -> is_hex_digit c = false.
Proof.
  intros Hc. destruct (is_hex_digit c) eqn:E; [|done].
  by rewrite (hex_digit_is_word _ E) in Hc.
Qed.

Lemma substring_is_prefix (n : nat) (s : string) :
  exists rest, s = String.substring 0 n s +:+ rest.
Proof.
  revert s. induction n as [|n IH]; intros [|c s]; simpl;
    try (by eexists).
  destruct (IH s) as [rest Hrest]. exists rest.
  rewrite append_cons. by rewrite <- Hrest.
Qed.

Lemma match_hex_run_some (n : nat) (s d : string) :
  match_hex_run n s = Some d ->
  String.length d = n
  /\ forallb is_hex_digit (list_ascii_of_string d) = true
  /\ exists rest, s = d +:+ rest.
Proof.
  unfold match_hex_run.
  destruct (String.length (str_take n s) =? n)%nat eqn:Hlen; [|done].
  destruct (forallb is_hex_digit _) eqn:Hhex; [|done].
  destruct (word_ends _); [|done]. simpl.
  intros [= <-]. apply Nat.eqb_eq in Hlen.
  repeat split; [done..|]. apply substring_is_prefix.
Qed.

Lemma match_address_digits_some (s d : string) :
  match_address_digits s = Some d ->
  is_address_digits d = true /\ exists rest, s = d +:+ rest.
Proof.
  unfold match_address_digits, is_address_digits.
  destruct (match_hex_run 6 s) as [d6|] eqn:E6.
  { intros [= <-]. destruct (match_hex_run_some _ _ _ E6) as (-> & -> & ?).
    done. }
  destruct (match_hex_run 5 s) as [d5|] eqn:E5.
  { intros [= <-]. destruct (match_hex_run_some _ _ _ E5) as (-> & -> & ?).
    done. }
  intros E4. destruct (match_hex_run_some _ _ _ E4) as (-> & -> & ?). done.
Qed.

(** Every literal the detector finds is four to six hexadecimal digits. *)
Lemma address_scan_shape (skip : nat) (s : string) :
  Forall (fun d => is_address_digits d = true) (address_scan skip s).
Proof.
  revert skip. induction s as [|c s IH]; intros skip; simpl; [constructor|].
  destruct skip as [|k]; [|apply IH].
  destruct (Ascii.eqb c "$"%char); [|apply IH].
  destruct (match_address_digits s) as [d|] eqn:E; [|apply IH].
  constructor; [|apply IH].
  by destruct (match_address_digits_some _ _ E).
Qed.

(** A run of hexadecimal digits stops before the next dollar sign. *)
Lemma hex_run_stops (d rest pre tail : string) :
  d +:+ rest = pre +:+ String "$"%char tail ->
  forallb is_hex_digit (list_ascii_of_string d) = true ->
  (String.length d <= String.length pre)%nat.
Proof.
  revert pre. induction d as [|x d IH]; intros pre Heq Hhex; simpl; [lia|].
  simpl in Hhex. apply andb_true_iff in Hhex as [Hx Hd].
  destruct pre as [|y pre].
  - rewrite append_cons in Heq. change ("" +:+ String "$"%char tail)
      with (String "$"%char tail) in Heq.
    injection Heq as -> _. done.
  - rewrite !append_cons in Heq. injection Heq as _ Heq.
    specialize (IH pre Heq Hd). simpl. lia.
Qed.

Lemma match_token_2100 (post : string) :
  word_ends post = true ->
  match_address_digits ("2100" +:+ post) = Some "2100".
Proof.
  destruct post as [|c post]; [done|]. simpl.
  intros Hc. apply negb_true_iff in Hc.
  pose proof (non_word_not_hex _ Hc) as Hhex.
  unfold match_address_digits, match_hex_run, str_take, str_drop.
  destruct post as [|c2 post]; simpl; rewrite ?Hhex, ?Hc; simpl; [done|].
  by rewrite andb_false_r.
Qed.

(** The token $2100, followed by the end of the text or by a character that
    is not a word character, is always among the matches. *)
Lemma address_scan_token (pre post : string) (skip : nat) :
  word_ends post = true ->
  (skip <= String.length pre)%nat ->
  "2100" ∈ address_scan skip (pre +:+ "$2100" +:+ post).
Proof.
  intros Hpost. revert skip.
  induction pre as [|c pre IH]; intros skip Hskip.
  - simpl in Hskip. assert (skip = 0%nat) as -> by lia.
    change ("" +:+ "$2100" +:+ post)
      with (String "$"%char ("2100" +:+ post)).
    simpl. rewrite (match_token_2100 _ Hpost). left.
  - rewrite append_cons. simpl address_scan. simpl in Hskip.
    destruct skip as [|k]; [|apply IH; lia].
    destruct (Ascii.eqb c "$"%char); [|apply IH; lia].
    destruct (match_address_digits (pre +:+ "$2100" +:+ post)) as [d|] eqn:E;
      [|apply IH; lia].
    right. apply IH.
    destruct (match_address_digits_some _ _ E) as (Hd & rest & Hrest).
    unfold is_address_digits in Hd.
    apply andb_true_iff in Hd as [Hd _]. apply andb_true_iff in Hd as [Hd _].
    exact (hex_run_stops d rest pre ("2100" +:+ post) (eq_sym Hrest) Hd).
Qed.

Lemma address_findall_token (pre post : string) :
  word_ends post = true ->
  "2100" ∈ address_findall (pre +:+ "$2100" +:+ post).
Proof. intros Hpost. apply address_scan_token; [done | lia]. Qed.

Lemma detect_addresses_token `{SetOrder} (query : string) (found : list Item) :
  detect_and_explain_addresses (Some mcp_client) query = Returns found ->
  "2100" ∈ address_findall query ->
  (length (remove_dups (address_findall query)) <= 10)%nat ->
  inidisp_record ∈ found.
Proof.
  unfold detect_and_explain_addresses. intros Hfound Hin Hlen.
  destruct (address_findall query) as [|a addresses] eqn:E;
    [by apply elem_of_nil in Hin|].
  rewrite <- E in *. clear E a addresses.
  rewrite take_ge in Hfound by (rewrite set_iter_length; lia).
  eapply (lookup_all_resolved _ _ _ "2100"); [exact Hfound | | |].
  - by apply set_iter_elem.
  - vm_compute. reflexivity.
  - vm_compute. reflexivity.
Qed.

Lemma join_cons (sep p : string) (rest : list string) :
  rest <> [] -> join sep (p :: rest) = p +:+ sep +:+ join sep rest.
Proof. by destruct rest. Qed.

Lemma join_app (sep : string) (a b : list string) :
  a <> [] -> b <> [] ->
  join sep (a ++ b) = join sep a +:+ sep +:+ join sep b.
Proof.
  intros Ha Hb. induction a as [|p a IH]; [done|].
  destruct a as [|q a].
  - simpl app. by rewrite join_cons.
  - change ((p :: q :: a) ++ b) with (p :: ((q :: a) ++ b)).
    rewrite join_cons by done. rewrite IH by done.
    rewrite (join_cons sep p (q :: a)) by done.
    by rewrite !append_assoc.
Qed.

(** A run of consecutive lines, joined, is part of the joined whole. *)
Lemma str_in_join_infix (sep : string) (a m b : list string) :
  m <> [] -> str_in (join sep m) (join sep (a ++ m ++ b)) = true.
Proof.
  intros Hm. apply str_in_spec.
  assert (m ++ b <> []) as Hmb by (by destruct m).
  destruct a as [|p a], b as [|q b].
  - exists "", "". simpl app. rewrite app_nil_r. by rewrite append_empty_r.
  - exists "", (sep +:+ join sep (q :: b)). simpl app at 1.
    by rewrite join_app.
  - exists (join sep (p :: a) +:+ sep), "".
    rewrite app_nil_r, join_app by done.
    by rewrite append_empty_r, append_assoc.
  - exists (join sep (p :: a) +:+ sep), (sep +:+ join sep (q :: b)).
    rewrite join_app by done. rewrite (join_app sep m) by done.
    by rewrite !append_assoc.
Qed.

Lemma for_each_elem {A B} (f : A -> outcome B) (l : list A) (bs : list B)
    (a : A) :
  for_each f l = Returns bs -> a ∈ l ->
  exists b, f a = Returns b /\ b ∈ bs.
Proof.
  revert bs. induction l as [|x l IH]; intros bs Hbs Ha.
  - by apply elem_of_nil in Ha.
  - simpl in Hbs.
    apply bind_returns in Hbs as (b & Hb & Hbs).
    apply bind_returns in Hbs as (bs' & Hbs' & Hbs).
    injection Hbs as <-.
    apply elem_of_cons in Ha as [->|Ha].
    + exists b. split; [done | left].
    + destruct (IH bs' Hbs' Ha) as (b' & ? & ?).
      exists b'. split; [done | by right].
Qed.

Lemma enrichment_lines (heading : string)
    (format : Item -> outcome (list string)) (found : list Item)
    (lines : list string) :
  enrichment heading format found = Returns lines ->
  found <> [] ->
  exists blocks,
    for_each format found = Returns blocks
    /\ lines = heading :: concat blocks.
Proof.
  unfold enrichment. destruct found as [|d found]; [done|].
  intros Hlines _.
  apply bind_returns in Hlines as (blocks & Hblocks & Hlines).
  injection Hlines as <-. eauto.
Qed.

(** What a context that is not empty is made of. *)
Lemma build_context_parts `{SetOrder} (mcp : option McpClient)
    (self : SNESRAGPipeline) (query : string) (max_items : Z) (out : string) :
  build_context mcp self query max_items = Returns out ->
  out <> "" ->
  exists family footer instruction_help instruction_lines address_info
         address_lines,
    detect_and_explain_instructions mcp query = Returns instruction_help
    /\ enrichment instructions_heading format_instruction instruction_help
       = Returns instruction_lines
    /\ detect_and_explain_addresses mcp query = Returns address_info
    /\ enrichment addresses_heading format_address address_info
       = Returns address_lines
    /\ out = join newline
               ([header] ++ (family ++ instruction_lines ++ address_lines)
                ++ [footer]).
Proof.
  intros Hout Hne.
  destruct (build_context_nonempty _ _ _ _ _ Hout Hne)
    as (ranked & family & extra & footer & _ & _ & _ & _ & Hextra & ->).
  unfold enrichment_sections in Hextra. destruct mcp as [client|].
  - apply bind_returns in Hextra as (instruction_help & Hi & Hextra).
    apply bind_returns in Hextra as (instruction_lines & Hil & Hextra).
    apply bind_returns in Hextra as (address_info & Ha & Hextra).
    apply bind_returns in Hextra as (address_lines & Hal & Hextra).
    injection Hextra as <-.
    exists family, footer, instruction_help, instruction_lines, address_info,
      address_lines. done.
  - injection Hextra as <-.
    exists family, footer, [], [], [], []. done.
Qed.

(** C2, amended: whenever [build_context] returns a context that is not
    empty (the store is available, the keyword set is not empty and at least
    one candidate is left by the reranking), the output holds, for each
    detector that yields a resolved result, the section of that detector:
    its heading followed by the lines of every resolved item; in particular
    a context that is not empty holds the memory-address section with the
    lines of the register $2100 when the query is ASCII text that holds the
    token $2100, ended by the end of the text or by a character that is not
    a word character, and at most ten distinct address literals. *)
Theorem C2_enrichment_in_nonempty_context `{SetOrder} (mcp : option McpClient)
    (self : SNESRAGPipeline) (query : string) (max_items : Z) (out : string) :
  build_context mcp self query max_items = Returns out ->
  out <> "" ->
  (forall found,
     detect_and_explain_instructions mcp query = Returns found ->
     found <> [] ->
     exists blocks,
       for_each format_instruction found = Returns blocks
       /\ str_in (join newline (instructions_heading :: concat blocks)) out
          = true)
  /\ (forall found,
        detect_and_explain_addresses mcp query = Returns found ->
        found <> [] ->
        exists blocks,
          for_each format_address found = Returns blocks
          /\ str_in (join newline (addresses_heading :: concat blocks)) out
             = true)
  /\ (forall pre post,
        mcp = Some mcp_client ->
        is_ascii query = true ->
        query = pre +:+ "$2100" +:+ post ->
        word_ends post = true ->
        (length (remove_dups (address_findall query)) <= 10)%nat ->
        str_in addresses_heading out = true
        /\ str_in (join newline inidisp_lines) out = true).
Proof.
  intros Hout Hne.
  destruct (build_context_parts _ _ _ _ _ Hout Hne)
    as (family & footer & ih & il & ai & al & Hi & Hil & Ha & Hal & ->).
  split; [|split].
  - intros found Hfound Hfne. rewrite Hi in Hfound. injection Hfound as ->.
    destruct (enrichment_lines _ _ _ _ Hil Hfne) as (blocks & Hblocks & ->).
    exists blocks. split; [done|].
    replace ([header] ++ (family ++ (instructions_heading :: concat blocks)
                          ++ al) ++ [footer])
      with (([header] ++ family) ++ (instructions_heading :: concat blocks)
            ++ (al ++ [footer]))
      by (by rewrite <- !app_assoc).
    by apply str_in_join_infix.
  - intros found Hfound Hfne. rewrite Ha in Hfound. injection Hfound as ->.
    destruct (enrichment_lines _ _ _ _ Hal Hfne) as (blocks & Hblocks & ->).
    exists blocks. split; [done|].
    replace ([header] ++ (family ++ il ++ addresses_heading :: concat blocks)
             ++ [footer])
      with (([header] ++ family ++ il) ++ (addresses_heading :: concat blocks)
            ++ [footer])
      by (by rewrite <- !app_assoc).
    by apply str_in_join_infix.
  - intros pre post -> _ -> Hpost Hlen.
    pose proof (detect_addresses_token _ _ Ha
                  (address_findall_token pre post Hpost) Hlen) as Hd.
    assert (ai <> []) as Hne' by (intros ->; by apply elem_of_nil in Hd).
    destruct (enrichment_lines _ _ _ _ Hal Hne') as (blocks & Hblocks & ->).
    destruct (for_each_elem _ _ _ _ Hblocks Hd) as (block & Hblock & Hin).
    assert (block = inidisp_lines) as ->
      by (vm_compute in Hblock; by injection Hblock as <-).
    apply list_elem_of_split in Hin as (before & after & ->).
    rewrite concat_app, concat_cons. split.
    + apply str_in_join. set_solver.
    + replace ([header] ++ (family ++ il ++ addresses_heading
                  :: concat before ++ inidisp_lines ++ concat after)
               ++ [footer])
        with (([header] ++ family ++ il ++ addresses_heading :: concat before)
              ++ inidisp_lines ++ (concat after ++ [footer])).
      { by apply str_in_join_infix. }
      rewrite <- !app_assoc. simpl. by rewrite <- !app_assoc.
Qed.

Lemma C2_enrichment_in_nonempty_context_witness :
  exists out,
    @build_context insertion_order (Some mcp_client) sample_pipeline
      "magic LDA $2100" 10 = Returns out
    /\ out <> ""
    /\ (forall found,
          @detect_and_explain_instructions insertion_order (Some mcp_client)
            "magic LDA $2100" = Returns found ->
          found <> [] ->
          exists blocks,
            for_each format_instruction found = Returns blocks
            /\ str_in (join newline (instructions_heading :: concat blocks))
                 out = true)
    /\ (forall found,
          @detect_and_explain_addresses insertion_order (Some mcp_client)
            "magic LDA $2100" = Returns found ->
          found <> [] ->
          exists blocks,
            for_each format_address found = Returns blocks
            /\ str_in (join newline (addresses_heading :: concat blocks)) out
               = true)
    /\ (forall pre post,
          Some mcp_client = Some mcp_client ->
          is_ascii "magic LDA $2100" = true ->
          "magic LDA $2100" = pre +:+ "$2100" +:+ post ->
          word_ends post = true ->
          (length (remove_dups (address_findall "magic LDA $2100")) <= 10)%nat ->
          str_in addresses_heading out = true
          /\ str_in (join newline inidisp_lines) out = true).
Proof.
  eexists. split; [vm_compute; reflexivity|]. split; [discriminate|].
  apply (@C2_enrichment_in_nonempty_context insertion_order (Some mcp_client)
           sample_pipeline "magic LDA $2100" 10);
    [vm_compute; reflexivity | discriminate].
Defined.

Lemma retrievals_send (session : Session) (keywords : list string) :
  let self := {| driver := Some session |} in
  get_relevant_mods self keywords = session (mods_statement keywords)
  /\ get_relevant_registers self keywords
     = session (registers_statement keywords)
  /\ get_relevant_components self keywords
     = session (components_statement keywords)
  /\ get_relevant_knowledge self keywords
     = session (knowledge_statement keywords).
Proof.
  simpl.
  unfold get_relevant_mods, get_relevant_registers, get_relevant_components,
    get_relevant_knowledge, mods_statement, registers_statement,
    components_statement, knowledge_statement. simpl.
  by destruct (infer_mod_types keywords), (infer_category keywords),
    (infer_component_names keywords).
Qed.

Lemma retrieve_candidates_statements (session : Session)
    (keywords : list string) :
  retrieve_candidates {| driver := Some session |} keywords
  = (mods <- session (mods_statement keywords) ;;
     registers <- session (registers_statement keywords) ;;
     components <- session (components_statement keywords) ;;
     knowledge <- session (knowledge_statement keywords) ;;
     Returns (merge_candidates mods registers components knowledge)).
Proof.
  unfold retrieve_candidates.
  destruct (retrievals_send session keywords) as (-> & -> & -> & ->). done.
Qed.

(** The exception of the first statement that fails is the outcome of the
    four retrievals. *)
Lemma first_failure_propagates (session : Session) (keywords : list string)
    (i : nat) (stmt : cypher) (e : exn) :
  statements keywords !! i = Some stmt ->
  session stmt = Raises e ->
  (forall j earlier, (j < i)%nat -> statements keywords !! j = Some earlier ->
                     is_returns (session earlier) = true) ->
  retrieve_candidates {| driver := Some session |} keywords = Raises e.
Proof.
  intros Hi He Hearlier. rewrite retrieve_candidates_statements.
  assert (forall j earlier, (j < i)%nat ->
            statements keywords !! j = Some earlier ->
            exists items, session earlier = Returns items) as Hret.
  { intros j earlier Hj Hstmt. specialize (Hearlier j earlier Hj Hstmt).
    destruct (session earlier); [eauto | done]. }
  unfold statements in *.
  destruct i as [|[|[|[|i]]]]; simpl in Hi; try done;
    injection Hi as <-.
  - by rewrite He.
  - destruct (Hret 0%nat _ ltac:(lia) eq_refl) as [? ->]. simpl.
    by rewrite He.
  - destruct (Hret 0%nat _ ltac:(lia) eq_refl) as [? ->].
    destruct (Hret 1%nat _ ltac:(lia) eq_refl) as [? ->]. simpl.
    by rewrite He.
  - destruct (Hret 0%nat _ ltac:(lia) eq_refl) as [? ->].
    destruct (Hret 1%nat _ ltac:(lia) eq_refl) as [? ->].
    destruct (Hret 2%nat _ ltac:(lia) eq_refl) as [? ->]. simpl.
    by rewrite He.
Qed.

(** A failure of any one statement makes the four retrievals raise. *)
Lemma any_failure_propagates (session : Session) (keywords : list string)
    (stmt : cypher) (e : exn) :
  stmt ∈ statements keywords ->
  session stmt = Raises e ->
  exists e', retrieve_candidates {| driver := Some session |} keywords
             = Raises e'.
Proof.
  intros Hstmt He. rewrite retrieve_candidates_statements.
  unfold statements in Hstmt.
  destruct (session (mods_statement keywords)) as [?|e0] eqn:H0;
    [|by eexists].
  destruct (session (registers_statement keywords)) as [?|e1] eqn:H1;
    [|by eexists].
  destruct (session (components_statement keywords)) as [?|e2] eqn:H2;
    [|by eexists].
  destruct (session (knowledge_statement keywords)) as [?|e3] eqn:H3;
    [|by eexists].
  exfalso.
  repeat (apply elem_of_cons in Hstmt as [->|Hstmt]; [congruence|]).
  by apply elem_of_nil in Hstmt.
Qed.

Lemma build_context_retrieval_raises `{SetOrder} (mcp : option McpClient)
    (session : Session) (e : exn) (query : string) (max_items : Z) :
  extract_keywords query <> [] ->
  retrieve_candidates {| driver := Some session |} (extract_keywords query)
  = Raises e ->
  build_context mcp {| driver := Some session |} query max_items = Raises e.
Proof.
  intros Hkw Hraise. unfold build_context. simpl.
  destruct (extract_keywords query) as [|k ks]; [done|].
  by rewrite Hraise.
Qed.

(** C1, amended: when the store is unavailable every per-family retrieval
    yields the empty sequence and [build_context] returns the empty string;
    with a driver, each retrieval hands on the outcome of its statement as
    it is, records or exception, and for a query with at least one keyword
    a failure of any of the four statements makes [build_context] raise, the
    exception being that of the first statement that fails in the order
    mods, registers, components, knowledge; only [get_rag_context] turns the
    exception into the absence of a context. *)
Theorem C1_store_failure_semantics `{SetOrder} (mcp : option McpClient)
    (query : string) (max_items : Z) (keywords : list string) :
  (get_relevant_mods offline_pipeline keywords = Returns []
   /\ get_relevant_registers offline_pipeline keywords = Returns []
   /\ get_relevant_components offline_pipeline keywords = Returns []
   /\ get_relevant_knowledge offline_pipeline keywords = Returns []
   /\ build_context mcp offline_pipeline query max_items = Returns "")
  /\ (forall session : Session,
        let self := {| driver := Some session |} in
        get_relevant_mods self keywords = session (mods_statement keywords)
        /\ get_relevant_registers self keywords
           = session (registers_statement keywords)
        /\ get_relevant_components self keywords
           = session (components_statement keywords)
        /\ get_relevant_knowledge self keywords
           = session (knowledge_statement keywords))
  /\ (forall (session : Session) (i : nat) (stmt : cypher) (e : exn),
        extract_keywords query <> [] ->
        statements (extract_keywords query) !! i = Some stmt ->
        session stmt = Raises e ->
        (forall j earlier,
           (j < i)%nat ->
           statements (extract_keywords query) !! j = Some earlier ->
           is_returns (session earlier) = true) ->
        build_context mcp {| driver := Some session |} query max_items
        = Raises e)
  /\ (forall (session : Session) (stmt : cypher) (e : exn),
        extract_keywords query <> [] ->
        stmt ∈ statements (extract_keywords query) ->
        session stmt = Raises e ->
        (exists e', build_context mcp {| driver := Some session |} query
                      max_items = Raises e')
        /\ get_rag_context mcp {| driver := Some session |} query = None).
Proof.
  split; [repeat split; reflexivity|].
  split; [intros session; apply retrievals_send|].
  split.
  - intros session i stmt e Hkw Hi He Hearlier.
    apply build_context_retrieval_raises; [done|].
    by eapply first_failure_propagates.
  - intros session stmt e Hkw Hstmt He.
    destruct (any_failure_propagates session _ stmt e Hstmt He) as [e' He'].
    split.
    + exists e'. by apply build_context_retrieval_raises.
    + unfold get_rag_context. simpl.
      by rewrite (build_context_retrieval_raises mcp session e' query 10 Hkw He').
Qed.

(** For instance, a store whose knowledge statement alone fails makes
    [build_context] raise after the three other retrievals have answered. *)
Lemma knowledge_failure_propagates :
  statements (@extract_keywords insertion_order "magic") !! 3%nat
  = Some (KnowledgeMatching ["magic"])
  /\ @build_context insertion_order (Some mcp_client)
       {| driver := Some knowledge_failing_session |} "magic" 10
     = Raises Neo4jError.
Proof. split; vm_compute; reflexivity. Qed.

(** ** A store that answers never makes the pipeline raise *)

















(** ** The memory map on the literals the detector passes *)

Lemma hex_char_facts (c : ascii) :
  is_hex_digit c = true ->
  is_space_char c = false
  /\ Ascii.eqb c "+"%char = false /\ Ascii.eqb c "-"%char = false
  /\ Ascii.eqb c "_"%char = false
  /\ Ascii.eqb c "x"%char = false /\ Ascii.eqb c "X"%char = false
  /\ c <> "$"%char /\ c <> "x"%char
  /\ (exists v, hex_value c = Some v)
  /\ is_hex_digit (upper_char c) = true.
Proof.
  destruct c as [[] [] [] [] [] [] [] []]; vm_compute; intros Hc;
    try discriminate Hc; repeat split; try discriminate; eauto.
Qed.

Lemma upper_char_idempotent (c : ascii) :
  upper_char (upper_char c) = upper_char c.
Proof. destruct c as [[] [] [] [] [] [] [] []]; reflexivity. Qed.

Lemma lower_char_idempotent (c : ascii) :
  lower_char (lower_char c) = lower_char c.
Proof. destruct c as [[] [] [] [] [] [] [] []]; reflexivity. Qed.

Lemma map_chars_idempotent (f : ascii -> ascii) (s : string) :
  (forall c, f (f c) = f c) -> map_chars f (map_chars f s) = map_chars f s.
Proof.
  intros Hf. induction s as [|c s IH]; simpl; [done|]. by rewrite Hf, IH.
Qed.

Lemma upper_idempotent (s : string) : upper (upper s) = upper s.
Proof. apply map_chars_idempotent, upper_char_idempotent. Qed.

Lemma lower_idempotent (s : string) : lower (lower s) = lower s.
Proof. apply map_chars_idempotent, lower_char_idempotent. Qed.

Lemma map_chars_length (f : ascii -> ascii) (s : string) :
  String.length (map_chars f s) = String.length s.
Proof. induction s as [|c s IH]; simpl; [done | by rewrite IH]. Qed.

Lemma map_chars_append (f : ascii -> ascii) (a b : string) :
  map_chars f (a +:+ b) = map_chars f a +:+ map_chars f b.
Proof.
  induction a as [|c a IH]; [done|].
  rewrite append_cons. simpl. by rewrite IH, append_cons.
Qed.

Lemma all_hex_cons (c : ascii) (s : string) :
  all_hex (String c s) = is_hex_digit c && all_hex s.
Proof. reflexivity. Qed.

Lemma all_hex_upper (s : string) : all_hex s = true -> all_hex (upper s) = true.
Proof.
  induction s as [|c s IH]; [done|].
  rewrite all_hex_cons. intros [Hc Hs]%andb_true_iff.
  change (upper (String c s)) with (String (upper_char c) (upper s)).
  rewrite all_hex_cons, (IH Hs), andb_true_r.
  by destruct (hex_char_facts c Hc) as (_ & _ & _ & _ & _ & _ & _ & _ & _ & ?).
Qed.

Lemma replace_go_cons (old new : string) (c : ascii) (s : string) :
  replace_go old new 0 (String c s) =
  if String.prefix old (String c s)
  then new +:+ replace_go old new (String.length old - 1) s
  else String c (replace_go old new 0 s).
Proof. reflexivity. Qed.

Lemma replace_dollar_hex (s : string) :
  all_hex s = true -> replace_go "$" "" 0 s = s.
Proof.
  induction s as [|c s IH]; [done|].
  rewrite all_hex_cons. intros [Hc Hs]%andb_true_iff.
  rewrite replace_go_cons.
  destruct (String.prefix "$" (String c s)) eqn:E; [|by rewrite (IH Hs)].
  apply prefix_split in E as [rest E]. injection E as -> _. done.
Qed.

Lemma replace_0x_hex (s : string) :
  all_hex s = true -> replace_go "0x" "" 0 s = s.
Proof.
  induction s as [|c s IH]; [done|].
  rewrite all_hex_cons. intros [Hc Hs]%andb_true_iff.
  rewrite replace_go_cons.
  destruct (String.prefix "0x" (String c s)) eqn:E; [|by rewrite (IH Hs)].
  apply prefix_split in E as [rest E]. injection E as -> ->. done.
Qed.

(** What [snes_memory_map] makes of the address before parsing it. *)
Lemma normalized_address (d : string) :
  all_hex d = true ->
  upper (replace "0x" "" (replace "$" "" ("$" +:+ d))) = upper d.
Proof.
  intros Hd. unfold replace.
  change ("$" +:+ d) with (String "$"%char d).
  rewrite replace_go_cons.
  replace (String.prefix "$" (String "$"%char d)) with true
    by (by destruct d).
  change ("" +:+ replace_go "$" "" (String.length "$" - 1) d)
    with (replace_go "$" "" 0 d).
  by rewrite (replace_dollar_hex _ Hd), (replace_0x_hex _ Hd).
Qed.

Lemma all_hex_Forall (s : string) :
  all_hex s = true ->
  Forall (fun c => is_hex_digit c = true) (list_ascii_of_string s).
Proof.
  unfold all_hex. rewrite forallb_forall. intros Hs.
  apply Forall_forall. intros c Hc. by apply Hs, list_elem_of_In.
Qed.

Lemma drop_spaces_hex (cs : list ascii) :
  Forall (fun c => is_hex_digit c = true) cs -> drop_spaces cs = cs.
Proof.
  destruct 1 as [|c cs Hc _]; [done|]. simpl.
  by destruct (hex_char_facts c Hc) as (-> & _).
Qed.

Lemma strip_spaces_hex (cs : list ascii) :
  Forall (fun c => is_hex_digit c = true) cs -> strip_spaces cs = cs.
Proof.
  intros Hcs. unfold strip_spaces.
  rewrite (drop_spaces_hex cs Hcs).
  rewrite drop_spaces_hex by (by apply Forall_reverse).
  apply reverse_involutive.
Qed.

Lemma hex_digits_value_hex (cs : list ascii) (acc : Z) :
  Forall (fun c => is_hex_digit c = true) cs ->
  exists v, hex_digits_value false acc cs = Some v.
Proof.
  intros Hcs. revert acc.
  induction Hcs as [|c cs Hc _ IH]; intros acc; simpl; [eauto|].
  destruct (hex_char_facts c Hc)
    as (_ & _ & _ & -> & _ & _ & _ & _ & [v ->] & _).
  apply IH.
Qed.

(** [int(s, 16)] does not raise on hexadecimal digits. *)
Lemma int_base16_hex (s : string) :
  s <> "" -> all_hex s = true -> exists v, int_base16 s = Returns v.
Proof.
  intros Hne Hs. apply all_hex_Forall in Hs.
  unfold int_base16. rewrite (strip_spaces_hex _ Hs).
  destruct s as [|c s]; [done|]. simpl list_ascii_of_string in *.
  pose proof (Forall_inv Hs) as Hc. pose proof (Forall_inv_tail Hs) as Htail.
  destruct (hex_char_facts c Hc) as (_ & -> & -> & Hu & _).
  assert (match list_ascii_of_string s with
          | x :: r =>
              if Ascii.eqb c "0"%char
                 && (Ascii.eqb x "x"%char || Ascii.eqb x "X"%char)
              then match r with
                   | u :: r' => if Ascii.eqb u "_"%char then r' else r
                   | [] => r
                   end
              else c :: list_ascii_of_string s
          | [] => c :: list_ascii_of_string s
          end = c :: list_ascii_of_string s) as ->.
  { destruct (list_ascii_of_string s) as [|x r]; [done|].
    destruct (hex_char_facts x (Forall_inv Htail))
      as (_ & _ & _ & _ & -> & -> & _).
    by rewrite andb_false_r. }
  rewrite Hu.
  destruct (hex_digits_value_hex (c :: list_ascii_of_string s) 0 Hs) as [v ->].
  eauto.
Qed.

Lemma classify_address_record (addr : string) (addr_val : Z) :
  classify_address addr addr_val !! "address" = Some (VStr ("$" +:+ addr))
  /\ nonempty_dict (classify_address addr addr_val) = true
  /\ is_returns (format_address (classify_address addr addr_val)) = true.
Proof.
  unfold classify_address.
  repeat case_match; repeat split; try (vm_compute; reflexivity);
    match goal with
    | H : table_get _ _ = Some (?name, _, _, _) |- _ => destruct name
    | H : table_get _ _ = Some (?name, _, _) |- _ => destruct name
    end; vm_compute; reflexivity.
Qed.

Lemma string_length_4 (s : string) :
  String.length s = 4%nat ->
  exists a b c d, s = String a (String b (String c (String d ""))).
Proof.
  destruct s as [|a [|b [|c [|d [|e s]]]]]; try discriminate. eauto.
Qed.

Lemma string_length_6 (s : string) :
  String.length s = 6%nat ->
  exists a b c d e f,
    s = String a (String b (String c (String d (String e (String f ""))))).
Proof.
  destruct s as [|a [|b [|c [|d [|e [|f [|g s]]]]]]]; try discriminate.
  do 6 eexists. reflexivity.
Qed.

(** On the digits the address pattern captures the memory map never
    raises: five digits resolve to nothing, four or six digits to a record
    that carries the uppercased address and that the report can format. *)
Lemma snes_memory_map_digits (d : string) :
  is_address_digits d = true ->
  if (String.length d =? 5)%nat
  then snes_memory_map ("$" +:+ d) = Returns None
  else exists info,
         snes_memory_map ("$" +:+ d) = Returns (Some info)
         /\ info !! "address" = Some (VStr ("$" +:+ upper d))
         /\ nonempty_dict info = true
         /\ is_returns (format_address info) = true.
Proof.
  unfold is_address_digits. fold (all_hex d).
  intros [[Hhex H4]%andb_true_iff H6]%andb_true_iff.
  apply Nat.leb_le in H4, H6.
  unfold snes_memory_map.
  change (String.eqb ("$" +:+ d) "") with false. cbv iota.
  rewrite (normalized_address d Hhex).
  pose proof (all_hex_upper d Hhex) as Hupper.
  assert (String.length (upper d) = String.length d) as Hlen
    by apply map_chars_length.
  rewrite Hlen.
  destruct (String.length d =? 5)%nat eqn:E5.
  - apply Nat.eqb_eq in E5. rewrite E5. reflexivity.
  - apply Nat.eqb_neq in E5.
    destruct (String.length d =? 4)%nat eqn:E4.
    + apply Nat.eqb_eq in E4.
      destruct (int_base16_hex (upper d)) as [v ->]; [|done|].
      { intros E. rewrite E in Hlen. simpl in Hlen. lia. }
      simpl. eexists. split; [reflexivity|].
      apply classify_address_record.
    + apply Nat.eqb_neq in E4.
      assert (String.length d = 6%nat) as E6 by lia.
      rewrite E6. simpl Nat.eqb. cbv iota.
      rewrite <- Hlen in E6.
      destruct (string_length_6 _ E6) as (a & b & c & e & f & g & Hu).
      rewrite Hu in Hupper |- *.
      rewrite !all_hex_cons, !andb_true_iff in Hupper.
      destruct Hupper as (Ha & Hb & Hc & He & Hf & Hg & _).
      change (str_last 4 (String a (String b (String c (String e
                (String f (String g "")))))))
        with (String c (String e (String f (String g "")))).
      change (str_take 2 (String a (String b (String c (String e
                (String f (String g "")))))))
        with (String a (String b "")).
      destruct (int_base16_hex (String c (String e (String f (String g "")))))
        as [v ->]; [done | by rewrite !all_hex_cons, Hc, He, Hf, Hg|].
      destruct (int_base16_hex (String a (String b ""))) as [w ->];
        [done | by rewrite !all_hex_cons, Ha, Hb|].
      simpl. eexists. split; [reflexivity|].
      apply classify_address_record.
Qed.

(** ** The detectors with the lookups of tools/mcp_client.py *)

Lemma lookup_all_returns (lookup : string -> outcome (option Item))
    (names : list string) :
  Forall (fun n => is_returns (lookup n) = true) names ->
  exists found,
    lookup_all lookup names = Returns found
    /\ (length found <= length names)%nat
    /\ Forall (fun d => exists n, n ∈ names /\ lookup n = Returns (Some d)
                                  /\ nonempty_dict d = true) found.
Proof.
  induction 1 as [|n names Hn _ (found & Hfound & Hlen & Hall)]; simpl.
  - exists []. split; [done|]. split; [simpl; lia | constructor].
  - destruct (lookup n) as [info|e] eqn:Hinfo; [|done]. simpl.
    rewrite Hfound. simpl.
    assert (Forall (fun d => exists m, m ∈ n :: names
                                       /\ lookup m = Returns (Some d)
                                       /\ nonempty_dict d = true) found)
      as Hall'.
    { eapply Forall_impl; [exact Hall|].
      intros d (m & Hm & Hd). exists m. split; [by right | done]. }
    destruct info as [d|]; [destruct (nonempty_dict d) eqn:Hd|];
      eexists; (split; [reflexivity|]); (split; [simpl; lia|]); try done.
    constructor; [|done]. exists n. repeat split; [left | done..].
Qed.

Lemma instruction_table_ok : forallb instruction_entry_ok instruction_table = true.
Proof. vm_compute. reflexivity. Qed.

Lemma instructions_lookup (m : string) (info : Item) :
  instructions !! m = Some info ->
  info !! "mnemonic" = Some (VStr m)
  /\ upper m = m
  /\ nonempty_dict info = true
  /\ is_returns (format_instruction info) = true.
Proof.
  intros Hm. apply elem_of_list_to_map_2, list_elem_of_In in Hm.
  pose proof instruction_table_ok as Hok. rewrite forallb_forall in Hok.
  specialize (Hok _ Hm). unfold instruction_entry_ok in Hok. simpl in Hok.
  rewrite !andb_true_iff in Hok. destruct Hok as [[[[H1 _] H2] H3] H4].
  apply bool_decide_eq_true in H1. apply String.eqb_eq in H2. done.
Qed.

Lemma instructions_known (m : string) (info : Item) :
  instructions !! m = Some info -> m ∈ mnemonics.
Proof.
  intros Hm. apply elem_of_list_to_map_2, list_elem_of_In in Hm.
  pose proof instruction_table_ok as Hok. rewrite forallb_forall in Hok.
  specialize (Hok _ Hm). unfold instruction_entry_ok in Hok. simpl in Hok.
  rewrite !andb_true_iff in Hok. destruct Hok as [[[[_ H1] _] _] _].
  by apply bool_decide_eq_true in H1.
Qed.

(** Every mnemonic the instruction pattern finds is one of its
    alternatives. *)
Lemma instruction_scan_mnemonics (prev_word : bool) (skip : nat) (s : string) :
  Forall (fun m => m ∈ mnemonics) (instruction_scan prev_word skip s).
Proof.
  revert prev_word skip.
  induction s as [|c s IH]; intros prev_word skip; simpl; [constructor|].
  destruct skip as [|k]; [|apply IH].
  destruct (if prev_word then None else match_mnemonic (String c s))
    as [m|] eqn:E; [|apply IH].
  constructor; [|apply IH].
  destruct prev_word; [done|].
  unfold match_mnemonic in E. apply find_some in E as [Hm _].
  by apply list_elem_of_In.
Qed.

Lemma mnemonics_upper : forallb (fun m => String.eqb (upper m) m) mnemonics = true.
Proof. vm_compute. reflexivity. Qed.

Lemma mnemonic_is_upper (m : string) : m ∈ mnemonics -> upper m = m.
Proof.
  intros Hm. pose proof mnemonics_upper as Hall.
  rewrite forallb_forall in Hall.
  apply String.eqb_eq, Hall. by apply list_elem_of_In.
Qed.

(** With the lookup table of tools/mcp_client.py the instruction detector
    never raises and returns at most five records, each the table entry of a
    matched mnemonic. *)
Lemma detect_instructions_found `{SetOrder} (query : string) :
  exists found,
    detect_and_explain_instructions (Some mcp_client) query = Returns found
    /\ (length found <= 5)%nat
    /\ Forall (fun info =>
                 exists m, m ∈ instruction_findall (upper query)
                           /\ m ∈ mnemonics
                           /\ instructions !! m = Some info
                           /\ info !! "mnemonic" = Some (VStr m)
                           /\ is_returns (format_instruction info) = true)
         found.
Proof.
  unfold detect_and_explain_instructions.
  destruct (instruction_findall (upper query)) as [|m0 ms] eqn:E.
  { exists []. split; [done|]. split; [simpl; lia | constructor]. }
  rewrite <- E. clear E m0 ms.
  destruct (lookup_all_returns (lookup_instruction mcp_client)
              (take 5 (set_iter (instruction_findall (upper query)))))
    as (found & Hfound & Hlen & Hall).
  { apply Forall_forall. intros n _. simpl. unfold snes_lookup_instruction.
    by destruct (String.eqb n ""). }
  exists found. split; [done|]. split.
  { rewrite length_take in Hlen. lia. }
  eapply Forall_impl; [exact Hall|].
  intros info (n & Hn & Hinfo & _).
  apply subseteq_take in Hn. rewrite set_iter_elem in Hn.
  assert (n ∈ mnemonics) as Hmn.
  { pose proof (instruction_scan_mnemonics false 0 (upper query)) as Hscan.
    rewrite Forall_forall in Hscan. by apply Hscan. }
  simpl in Hinfo. unfold snes_lookup_instruction in Hinfo.
  destruct (String.eqb n ""); [done|].
  injection Hinfo as Hinfo. rewrite (mnemonic_is_upper _ Hmn) in Hinfo.
  destruct (instructions_lookup _ _ Hinfo) as (? & _ & _ & ?).
  exists n. done.
Qed.

(** With the memory map of tools/mcp_client.py the address detector never
    raises and returns at most ten records, each for a matched literal of
    four or six digits. *)
Lemma detect_addresses_found `{SetOrder} (query : string) :
  exists found,
    detect_and_explain_addresses (Some mcp_client) query = Returns found
    /\ (length found <= 10)%nat
    /\ Forall (fun info =>
                 exists d, d ∈ address_findall query
                           /\ String.length d <> 5%nat
                           /\ info !! "address" = Some (VStr ("$" +:+ upper d))
                           /\ is_returns (format_address info) = true)
         found.
Proof.
  unfold detect_and_explain_addresses.
  destruct (address_findall query) as [|d0 ds] eqn:E.
  { exists []. split; [done|]. split; [simpl; lia | constructor]. }
  rewrite <- E. clear E d0 ds.
  assert (forall d, d ∈ take 10 (set_iter (address_findall query)) ->
                    d ∈ address_findall query /\ is_address_digits d = true)
    as Hshape.
  { intros d Hd. apply subseteq_take in Hd. rewrite set_iter_elem in Hd.
    split; [done|].
    pose proof (address_scan_shape 0 query) as Hall.
    rewrite Forall_forall in Hall. by apply Hall. }
  destruct (lookup_all_returns
              (fun addr => lookup_memory_map mcp_client ("$" +:+ addr))
              (take 10 (set_iter (address_findall query))))
    as (found & Hfound & Hlen & Hall).
  { apply Forall_forall. intros d Hd. simpl.
    destruct (Hshape d Hd) as [_ Hdigits].
    pose proof (snes_memory_map_digits d Hdigits) as Hmap.
    destruct (String.length d =? 5)%nat; [by rewrite Hmap|].
    by destruct Hmap as (info & -> & _). }
  exists found. split; [done|]. split.
  { rewrite length_take in Hlen. lia. }
  eapply Forall_impl; [exact Hall|].
  intros info (d & Hd & Hinfo & _).
  destruct (Hshape d Hd) as [Hin Hdigits]. simpl in Hinfo.
  pose proof (snes_memory_map_digits d Hdigits) as Hmap.
  destruct (String.length d =? 5)%nat eqn:E5.
  { rewrite Hmap in Hinfo. done. }
  destruct Hmap as (info' & Hmap & Haddr & _ & Hfmt).
  rewrite Hmap in Hinfo. injection Hinfo as <-.
  exists d. apply Nat.eqb_neq in E5. done.
Qed.

(** When the prompt holds at most ten distinct address literals, every
    matched literal of four or six digits is resolved. *)
Lemma detect_addresses_all `{SetOrder} (query d : string)
    (found : list Item) :
  detect_and_explain_addresses (Some mcp_client) query = Returns found ->
  (length (remove_dups (address_findall query)) <= 10)%nat ->
  d ∈ address_findall query ->
  String.length d <> 5%nat ->
  exists info, info ∈ found
               /\ info !! "address" = Some (VStr ("$" +:+ upper d)).
Proof.
  unfold detect_and_explain_addresses. intros Hfound Hlen Hd H5.
  destruct (address_findall query) as [|d0 ds] eqn:E;
    [by apply elem_of_nil in Hd|].
  rewrite <- E in *. clear E d0 ds.
  rewrite take_ge in Hfound by (rewrite set_iter_length; lia).
  assert (is_address_digits d = true) as Hdigits.
  { pose proof (address_scan_shape 0 query) as Hall.
    rewrite Forall_forall in Hall. by apply Hall. }
  pose proof (snes_memory_map_digits d Hdigits) as Hmap.
  apply Nat.eqb_neq in H5. rewrite H5 in Hmap.
  destruct Hmap as (info & Hmap & Haddr & Hne & _).
  exists info. split; [|done].
  eapply (lookup_all_resolved _ _ _ d); [exact Hfound | | exact Hmap | done].
  by apply set_iter_elem.
Qed.





(** ** Further properties: the reference lookups *)

Lemma snes_memory_map_parsed (d : string) :
  all_hex d = true ->
  String.length d = 4%nat \/ String.length d = 6%nat ->
  exists low,
    int_base16 (str_last 4 (upper d)) = Returns low
    /\ snes_memory_map ("$" +:+ d)
       = Returns (Some (classify_address (upper d) low)).
Proof.
  intros Hhex Hlen. unfold snes_memory_map.
  change (String.eqb ("$" +:+ d) "") with false. cbv iota.
  rewrite (normalized_address d Hhex).
  pose proof (all_hex_upper d Hhex) as Hupper.
  assert (String.length (upper d) = String.length d) as Hu
    by apply map_chars_length.
  destruct Hlen as [Hlen|Hlen]; rewrite <- Hu in Hlen; rewrite Hlen.
  - destruct (string_length_4 _ Hlen) as (a & b & c & e & Hd).
    rewrite Hd in Hupper |- *.
    change (str_last 4 (String a (String b (String c (String e "")))))
      with (String a (String b (String c (String e "")))).
    destruct (int_base16_hex (String a (String b (String c (String e "")))))
      as [v Hv]; [done | done |].
    exists v. by rewrite Hv.
  - destruct (string_length_6 _ Hlen) as (a & b & c & e & f & g & Hd).
    rewrite Hd in Hupper |- *.
    rewrite !all_hex_cons, !andb_true_iff in Hupper.
    destruct Hupper as (Ha & Hb & Hc & He & Hf & Hg & _).
    change (str_last 4 (String a (String b (String c (String e
              (String f (String g "")))))))
      with (String c (String e (String f (String g "")))).
    change (str_take 2 (String a (String b (String c (String e
              (String f (String g "")))))))
      with (String a (String b "")).
    destruct (int_base16_hex (String c (String e (String f (String g "")))))
      as [v Hv]; [done | by rewrite !all_hex_cons, Hc, He, Hf, Hg|].
    destruct (int_base16_hex (String a (String b ""))) as [w Hw];
      [done | by rewrite !all_hex_cons, Ha, Hb|].
    exists v. simpl Nat.eqb. cbv iota. by rewrite Hv, Hw.
Qed.

Lemma snes_memory_map_other_length (d : string) :
  all_hex d = true ->
  String.length d <> 4%nat -> String.length d <> 6%nat ->
  snes_memory_map ("$" +:+ d) = Returns None.
Proof.
  intros Hhex H4 H6. unfold snes_memory_map.
  change (String.eqb ("$" +:+ d) "") with false. cbv iota.
  rewrite (normalized_address d Hhex).
  assert (String.length (upper d) = String.length d) as ->
    by apply map_chars_length.
  apply Nat.eqb_neq in H4, H6. by rewrite H4, H6.
Qed.

Lemma classify_address_io (addr : string) (low : Z) :
  classify_address addr low !! "type" = Some (VStr "I/O")
  <-> (0x2100 <= low <= 0x21FF \/ 0x4200 <= low <= 0x44FF).
Proof.
  unfold classify_address.
  destruct ((8448 <=? low) && (low <=? 8703)) eqn:Hppu.
  { apply andb_true_iff in Hppu as [?%Z.leb_le ?%Z.leb_le].
    split; [lia|]. intros _.
    destruct (table_get low ppu_registers) as [[[[? ?] ?] ?]|];
      vm_compute; reflexivity. }
  destruct ((16896 <=? low) && (low <=? 17663)) eqn:Hcpu.
  { apply andb_true_iff in Hcpu as [?%Z.leb_le ?%Z.leb_le].
    split; [lia|]. intros _.
    destruct (table_get low cpu_registers) as [[[? ?] ?]|];
      vm_compute; reflexivity. }
  apply andb_false_iff in Hppu, Hcpu.
  rewrite !Z.leb_gt in Hppu, Hcpu.
  split; [|lia]. intros Htype. exfalso.
  repeat case_match; vm_compute in Htype; discriminate.
Qed.

(** X1. For an address of hexadecimal digits the memory map never raises:
    it returns a record, carrying the uppercased address, exactly when there
    are four or six digits, and nothing for any other number of digits. *)
Theorem memory_map_hex_address (d : string) :
  all_hex d = true ->
  (String.length d = 4%nat \/ String.length d = 6%nat ->
   exists info,
     snes_memory_map ("$" +:+ d) = Returns (Some info)
     /\ info !! "address" = Some (VStr ("$" +:+ upper d))
     /\ nonempty_dict info = true)
  /\ (String.length d <> 4%nat -> String.length d <> 6%nat ->
      snes_memory_map ("$" +:+ d) = Returns None).
Proof.
  intros Hhex. split.
  - intros Hlen.
    destruct (snes_memory_map_parsed d Hhex Hlen) as (low & _ & ->).
    eexists. split; [reflexivity|].
    destruct (classify_address_record (upper d) low) as (? & ? & _). done.
  - by apply snes_memory_map_other_length.
Qed.

Lemma memory_map_hex_address_witness :
  all_hex "7e0000" = true
  /\ (String.length "7e0000" = 4%nat \/ String.length "7e0000" = 6%nat ->
      exists info,
        snes_memory_map ("$" +:+ "7e0000") = Returns (Some info)
        /\ info !! "address" = Some (VStr ("$" +:+ upper "7e0000"))
        /\ nonempty_dict info = true)
  /\ (String.length "7e0000" <> 4%nat -> String.length "7e0000" <> 6%nat ->
      snes_memory_map ("$" +:+ "7e0000") = Returns None).
Proof.
  split; [reflexivity|]. apply (memory_map_hex_address "7e0000"). reflexivity.
Defined.

(** X2. The memory map ignores the case of the hexadecimal digits. *)
Theorem memory_map_ignores_case (d : string) :
  all_hex d = true ->
  snes_memory_map ("$" +:+ upper d) = snes_memory_map ("$" +:+ d).
Proof.
  intros Hhex. unfold snes_memory_map.
  change (String.eqb ("$" +:+ upper d) "") with false.
  change (String.eqb ("$" +:+ d) "") with false. cbv iota.
  rewrite (normalized_address d Hhex).
  rewrite (normalized_address (upper d) (all_hex_upper d Hhex)).
  by rewrite upper_idempotent.
Qed.

Lemma memory_map_ignores_case_witness :
  all_hex "7ef36e" = true
  /\ snes_memory_map ("$" +:+ upper "7ef36e") = snes_memory_map ("$" +:+ "7ef36e").
Proof.
  split; [reflexivity|]. apply (memory_map_ignores_case "7ef36e"). reflexivity.
Defined.

(** X3. The register ranges are looked at before the bank: for four or six
    hexadecimal digits the record has type "I/O" exactly when the low 16 bits
    lie in $2100-$21FF or $4200-$44FF, whatever the bank. *)
Theorem memory_map_register_ranges (d : string) :
  all_hex d = true ->
  String.length d = 4%nat \/ String.length d = 6%nat ->
  exists low info,
    int_base16 (str_last 4 (upper d)) = Returns low
    /\ snes_memory_map ("$" +:+ d) = Returns (Some info)
    /\ (info !! "type" = Some (VStr "I/O")
        <-> (0x2100 <= low <= 0x21FF \/ 0x4200 <= low <= 0x44FF)).
Proof.
  intros Hhex Hlen.
  destruct (snes_memory_map_parsed d Hhex Hlen) as (low & Hlow & Hmap).
  exists low, (classify_address (upper d) low).
  split; [done|]. split; [done|]. apply classify_address_io.
Qed.

Lemma memory_map_register_ranges_witness :
  all_hex "7E2100" = true
  /\ (String.length "7E2100" = 4%nat \/ String.length "7E2100" = 6%nat)
  /\ exists low info,
       int_base16 (str_last 4 (upper "7E2100")) = Returns low
       /\ snes_memory_map ("$" +:+ "7E2100") = Returns (Some info)
       /\ (info !! "type" = Some (VStr "I/O")
           <-> (0x2100 <= low <= 0x21FF \/ 0x4200 <= low <= 0x44FF)).
Proof.
  split; [reflexivity|]. split; [by right|].
  apply (memory_map_register_ranges "7E2100"); [reflexivity | by right].
Defined.

(** X4. The instruction lookup ignores the case of an ASCII mnemonic; a
    record it returns is filed under the uppercased mnemonic, which is one
    of the alternatives of the instruction pattern. *)
Theorem lookup_instruction_by_mnemonic (m : string) :
  is_ascii m = true ->
  snes_lookup_instruction (upper m) = snes_lookup_instruction m
  /\ forall info,
       snes_lookup_instruction m = Returns (Some info) ->
       info !! "mnemonic" = Some (VStr (upper m))
       /\ upper m ∈ mnemonics
       /\ nonempty_dict info = true.
Proof.
  intros _. unfold snes_lookup_instruction. split.
  - rewrite upper_idempotent. by destruct m.
  - intros info Hinfo. destruct (String.eqb m ""); [done|].
    injection Hinfo as Hinfo.
    destruct (instructions_lookup _ _ Hinfo) as (? & _ & ? & _).
    pose proof (instructions_known _ _ Hinfo). done.
Qed.

Lemma lookup_instruction_by_mnemonic_witness :
  is_ascii "sta" = true
  /\ snes_lookup_instruction (upper "sta") = snes_lookup_instruction "sta"
  /\ forall info,
       snes_lookup_instruction "sta" = Returns (Some info) ->
       info !! "mnemonic" = Some (VStr (upper "sta"))
       /\ upper "sta" ∈ mnemonics
       /\ nonempty_dict info = true.
Proof.
  split; [reflexivity|]. apply (lookup_instruction_by_mnemonic "sta").
  reflexivity.
Defined.

(** ** Banks and registers of the memory map *)

(** X5. Outside the two register ranges the region follows the bank: a
    four-digit address is never put in a bank and is reported as unknown; a
    six-digit address is work RAM in the banks 7E and 7F, ROM in the banks
    80 to 8F, and unknown elsewhere. *)
Theorem memory_map_banks (d : string) :
  all_hex d = true ->
  String.length d = 4%nat \/ String.length d = 6%nat ->
  exists low info,
    int_base16 (str_last 4 (upper d)) = Returns low
    /\ snes_memory_map ("$" +:+ d) = Returns (Some info)
    /\ (~ (0x2100 <= low <= 0x21FF \/ 0x4200 <= low <= 0x44FF) ->
        let bank := str_take 2 (upper d) in
        info !! "region"
        = Some (VStr (if (String.length d =? 4)%nat then "Unknown"
                      else if bool_decide (bank ∈ ["7E"; "7F"])
                           then "WRAM (Work RAM)"
                      else if bool_decide (bank ∈ rom_banks)
                           then "ROM (LoROM mapping)"
                      else "Unknown"))).
Proof.
  intros Hhex Hlen.
  destruct (snes_memory_map_parsed d Hhex Hlen) as (low & Hlow & Hmap).
  exists low, (classify_address (upper d) low).
  split; [done|]. split; [done|]. intros Hout bank.
  unfold classify_address.
  assert (String.length (upper d) = String.length d) as ->
    by apply map_chars_length.
  destruct ((8448 <=? low) && (low <=? 8703)) eqn:Hppu.
  { apply andb_true_iff in Hppu as [?%Z.leb_le ?%Z.leb_le]. lia. }
  destruct ((16896 <=? low) && (low <=? 17663)) eqn:Hcpu.
  { apply andb_true_iff in Hcpu as [?%Z.leb_le ?%Z.leb_le]. lia. }
  fold bank.
  destruct Hlen as [-> | ->]; simpl Nat.eqb; cbv iota; simpl andb.
  { vm_compute. reflexivity. }
  destruct (String.eqb_spec bank "7E") as [->|H7e]; [vm_compute; reflexivity|].
  destruct (String.eqb_spec bank "7F") as [->|H7f]; [vm_compute; reflexivity|].
  rewrite (bool_decide_eq_false_2 (bank ∈ ["7E"; "7F"])) by (rewrite !elem_of_cons, elem_of_nil; intuition).
  destruct (bool_decide (bank ∈ rom_banks)); vm_compute; reflexivity.
Qed.

Lemma memory_map_banks_witness :
  all_hex "7f1234" = true
  /\ (String.length "7f1234" = 4%nat \/ String.length "7f1234" = 6%nat)
  /\ exists low info,
       int_base16 (str_last 4 (upper "7f1234")) = Returns low
       /\ snes_memory_map ("$" +:+ "7f1234") = Returns (Some info)
       /\ (~ (0x2100 <= low <= 0x21FF \/ 0x4200 <= low <= 0x44FF) ->
           let bank := str_take 2 (upper "7f1234") in
           info !! "region"
           = Some (VStr (if (String.length "7f1234" =? 4)%nat then "Unknown"
                         else if bool_decide (bank ∈ ["7E"; "7F"])
                              then "WRAM (Work RAM)"
                         else if bool_decide (bank ∈ rom_banks)
                              then "ROM (LoROM mapping)"
                         else "Unknown"))).
Proof.
  split; [reflexivity|]. split; [by right|].
  apply (memory_map_banks "7f1234"); [reflexivity | by right].
Defined.

Lemma table_get_is_Some {A} (key : Z) (table : list (Z * A)) :
  is_Some (table_get key table) <-> key ∈ table.*1.
Proof.
  induction table as [|[k a] table IH]; simpl.
  - split; [by intros [? ?] | by intros ?%elem_of_nil].
  - rewrite elem_of_cons. destruct (Z.eqb_spec k key) as [->|Hne].
    + split; [by left | by eexists].
    + rewrite IH. split; [by right | by intros [->|?]].
Qed.

Lemma classify_address_named (addr : string) (low : Z) :
  has_key "name" (classify_address addr low) = true
  <-> (0x2100 <= low <= 0x2107 \/ 0x4200 <= low <= 0x4206).
Proof.
  assert (is_Some (table_get low ppu_registers) <-> 0x2100 <= low <= 0x2107)
    as Hppu_table.
  { rewrite table_get_is_Some. simpl. rewrite !elem_of_cons, elem_of_nil.
    lia. }
  assert (is_Some (table_get low cpu_registers) <-> 0x4200 <= low <= 0x4206)
    as Hcpu_table.
  { rewrite table_get_is_Some. simpl. rewrite !elem_of_cons, elem_of_nil.
    lia. }
  unfold classify_address.
  destruct ((8448 <=? low) && (low <=? 8703)) eqn:Hppu.
  { apply andb_true_iff in Hppu as [?%Z.leb_le ?%Z.leb_le].
    destruct (table_get low ppu_registers) as [[[[? ?] ?] ?]|].
    - split; [|intros _; vm_compute; reflexivity].
      intros _. left. by apply Hppu_table.
    - split; [vm_compute; discriminate|].
      intros [Hin|Hin]; [|lia]. apply Hppu_table in Hin as [? [=]]. }
  destruct ((16896 <=? low) && (low <=? 17663)) eqn:Hcpu.
  { apply andb_true_iff in Hcpu as [?%Z.leb_le ?%Z.leb_le].
    destruct (table_get low cpu_registers) as [[[? ?] ?]|].
    - split; [|intros _; vm_compute; reflexivity].
      intros _. right. by apply Hcpu_table.
    - split; [vm_compute; discriminate|].
      intros [Hin|Hin]; [lia|]. apply Hcpu_table in Hin as [? [=]]. }
  apply andb_false_iff in Hppu, Hcpu.
  rewrite !Z.leb_gt in Hppu, Hcpu.
  split; [|lia]. intros Hname. exfalso.
  repeat case_match; vm_compute in Hname; discriminate.
Qed.

(** X6. [snes_register_info] answers only for the fifteen registers the
    memory map has a name for, $2100-$2107 and $4200-$4206, with the record
    of the memory map as its one entry; for every other address of four or
    six hexadecimal digits it returns nothing.  The arguments name, category
    and search are never read. *)
Theorem register_info_for_tabulated_registers (d : string)
    (name category search : option string) :
  all_hex d = true ->
  String.length d = 4%nat \/ String.length d = 6%nat ->
  exists low,
    int_base16 (str_last 4 (upper d)) = Returns low
    /\ ((0x2100 <= low <= 0x2107 \/ 0x4200 <= low <= 0x4206) ->
        exists info,
          snes_memory_map ("$" +:+ d) = Returns (Some info)
          /\ snes_register_info (Some ("$" +:+ d)) name category search
             = Returns (Some [info]))
    /\ (~ (0x2100 <= low <= 0x2107 \/ 0x4200 <= low <= 0x4206) ->
        snes_register_info (Some ("$" +:+ d)) name category search
        = Returns None).
Proof.
  intros Hhex Hlen.
  destruct (snes_memory_map_parsed d Hhex Hlen) as (low & Hlow & Hmap).
  exists low. split; [done|].
  pose proof (classify_address_named (upper d) low) as Hnamed.
  destruct (classify_address_record (upper d) low) as (_ & Hne & _).
  unfold snes_register_info.
  change (String.eqb ("$" +:+ d) "") with false. cbv iota.
  rewrite Hmap. simpl. rewrite Hne. simpl.
  split.
  - intros Hin. apply Hnamed in Hin. rewrite Hin. eauto.
  - intros Hout.
    destruct (has_key "name" (classify_address (upper d) low)); [|done].
    exfalso. by apply Hout, Hnamed.
Qed.

Lemma register_info_for_tabulated_registers_witness :
  all_hex "4200" = true
  /\ (String.length "4200" = 4%nat \/ String.length "4200" = 6%nat)
  /\ exists low,
       int_base16 (str_last 4 (upper "4200")) = Returns low
       /\ ((0x2100 <= low <= 0x2107 \/ 0x4200 <= low <= 0x4206) ->
           exists info,
             snes_memory_map ("$" +:+ "4200") = Returns (Some info)
             /\ snes_register_info (Some ("$" +:+ "4200")) None None None
                = Returns (Some [info]))
       /\ (~ (0x2100 <= low <= 0x2107 \/ 0x4200 <= low <= 0x4206) ->
           snes_register_info (Some ("$" +:+ "4200")) None None None
           = Returns None).
Proof.
  split; [reflexivity|]. split; [by left|].
  apply (register_info_for_tabulated_registers "4200" None None None);
    [reflexivity | by left].
Defined.

(** ** What the patterns find occurs in the text *)

Lemma prefix_is_head (m s : string) :
  String.prefix m s = true -> exists rest, s = m +:+ rest.
Proof. intros Hm. destruct (prefix_split _ _ Hm) as [rest ->]. eauto. Qed.

Lemma instruction_scan_occurs (prev_word : bool) (skip : nat) (s m : string) :
  m ∈ instruction_scan prev_word skip s -> str_in m s = true.
Proof.
  revert prev_word skip. induction s as [|c s IH]; intros prev_word skip Hm.
  - by apply elem_of_nil in Hm.
  - assert (forall p k, m ∈ instruction_scan p k s ->
                        str_in m (String c s) = true) as Hrest.
    { intros p k Hin. apply IH in Hin. apply str_in_spec in Hin
        as (a & b & ->). apply str_in_spec. by exists (String c a), b. }
    simpl in Hm. destruct skip as [|k]; [|by eapply Hrest].
    destruct (if prev_word then None else match_mnemonic (String c s))
      as [m'|] eqn:Hmatch; [|by eapply Hrest].
    apply elem_of_cons in Hm as [->|Hm]; [|by eapply Hrest].
    destruct prev_word; [done|]. unfold match_mnemonic in Hmatch.
    apply find_some in Hmatch as [_ [Hprefix _]%andb_true_iff].
    apply prefix_is_head in Hprefix as [rest ->].
    apply str_in_spec. by exists "", rest.
Qed.

Lemma address_scan_occurs (skip : nat) (s d : string) :
  d ∈ address_scan skip s -> str_in ("$" +:+ d) s = true.
Proof.
  revert skip. induction s as [|c s IH]; intros skip Hd.
  - by apply elem_of_nil in Hd.
  - assert (forall k, d ∈ address_scan k s ->
                      str_in ("$" +:+ d) (String c s) = true) as Hrest.
    { intros k Hin. apply IH in Hin. apply str_in_spec in Hin
        as (a & b & ->). apply str_in_spec. by exists (String c a), b. }
    simpl in Hd. destruct skip as [|k]; [|by eapply Hrest].
    destruct (Ascii.eqb_spec c "$") as [->|Hne]; [|by eapply Hrest].
    destruct (match_address_digits s) as [d'|] eqn:Hmatch;
      [|by eapply Hrest].
    apply elem_of_cons in Hd as [->|Hd]; [|by eapply Hrest].
    apply match_address_digits_some in Hmatch as [_ [rest ->]].
    apply str_in_spec. by exists "", rest.
Qed.

(** X7. What the two patterns find in an ASCII query is there: a mnemonic
    found is one of the alternatives of the instruction pattern and occurs
    in the uppercased query; an address literal found has four to six
    hexadecimal digits and occurs in the query behind a dollar sign. *)
Theorem detected_literals_occur_in_query (query : string) :
  is_ascii query = true ->
  (forall m, m ∈ instruction_findall (upper query) ->
             m ∈ mnemonics /\ str_in m (upper query) = true)
  /\ (forall d, d ∈ address_findall query ->
                is_address_digits d = true
                /\ str_in ("$" +:+ d) query = true).
Proof.
  intros _. split.
  - intros m Hm. split; [|by eapply instruction_scan_occurs].
    by apply (proj1 (Forall_forall _ _)
                (instruction_scan_mnemonics false 0 (upper query))).
  - intros d Hd. split; [|by eapply address_scan_occurs].
    by apply (proj1 (Forall_forall _ _) (address_scan_shape 0 query)).
Qed.

Lemma detected_literals_occur_in_query_witness :
  is_ascii "lda $2100, sta $7E0010" = true
  /\ (forall m, m ∈ instruction_findall (upper "lda $2100, sta $7E0010") ->
                m ∈ mnemonics
                /\ str_in m (upper "lda $2100, sta $7E0010") = true)
  /\ (forall d, d ∈ address_findall "lda $2100, sta $7E0010" ->
                is_address_digits d = true
                /\ str_in ("$" +:+ d) "lda $2100, sta $7E0010" = true).
Proof.
  split; [reflexivity|].
  apply (detected_literals_occur_in_query "lda $2100, sta $7E0010").
  reflexivity.
Defined.

(** ** The two detectors with the lookups of tools/mcp_client.py *)

(** X8. On an ASCII query the instruction detector never raises and
    returns at most five records; each is the entry of the instruction table
    for a mnemonic found in the uppercased query, and the report can format
    it.  When no mnemonic found is in the table, nothing is returned. *)
Theorem detected_instructions_are_tabulated `{SetOrder} (query : string) :
  is_ascii query = true ->
  exists found,
    detect_and_explain_instructions (Some mcp_client) query = Returns found
    /\ (length found <= 5)%nat
    /\ (forall info,
          info ∈ found ->
          exists m, m ∈ instruction_findall (upper query)
                    /\ m ∈ mnemonics
                    /\ instructions !! m = Some info
                    /\ info !! "mnemonic" = Some (VStr m)
                    /\ is_returns (format_instruction info) = true)
    /\ (Forall (fun m => instructions !! m = None)
          (instruction_findall (upper query)) ->
        found = []).
Proof.
  intros _.
  destruct (detect_instructions_found query) as (found & Hfound & Hlen & Hall).
  exists found. split; [done|]. split; [done|]. split.
  - intros info Hinfo. by apply (proj1 (Forall_forall _ _) Hall).
  - intros Hnone. destruct found as [|info found]; [done|]. exfalso.
    apply Forall_cons in Hall as [(m & Hm & _ & Hsome & _) _].
    rewrite Forall_forall in Hnone. specialize (Hnone m Hm). congruence.
Qed.

Lemma detected_instructions_are_tabulated_witness :
  is_ascii "lda then nop then sta" = true
  /\ exists found,
       @detect_and_explain_instructions insertion_order (Some mcp_client)
         "lda then nop then sta" = Returns found
       /\ (length found <= 5)%nat
       /\ (forall info,
             info ∈ found ->
             exists m, m ∈ instruction_findall (upper "lda then nop then sta")
                       /\ m ∈ mnemonics
                       /\ instructions !! m = Some info
                       /\ info !! "mnemonic" = Some (VStr m)
                       /\ is_returns (format_instruction info) = true)
       /\ (Forall (fun m => instructions !! m = None)
             (instruction_findall (upper "lda then nop then sta")) ->
           found = []).
Proof.
  split; [reflexivity|].
  apply (@detected_instructions_are_tabulated insertion_order
           "lda then nop then sta").
  reflexivity.
Defined.

(** X9. On an ASCII query the address detector never raises and returns
    at most ten records; each is the memory-map record of a literal of four
    or six digits found in the query, and the report can format it.  With at
    most ten distinct literals in the query, every literal of four or six
    digits has its record in the result. *)
Theorem detected_addresses_are_resolved `{SetOrder} (query : string) :
  is_ascii query = true ->
  exists found,
    detect_and_explain_addresses (Some mcp_client) query = Returns found
    /\ (length found <= 10)%nat
    /\ (forall info,
          info ∈ found ->
          exists d, d ∈ address_findall query
                    /\ String.length d <> 5%nat
                    /\ info !! "address" = Some (VStr ("$" +:+ upper d))
                    /\ is_returns (format_address info) = true)
    /\ ((length (remove_dups (address_findall query)) <= 10)%nat ->
        forall d,
          d ∈ address_findall query ->
          String.length d <> 5%nat ->
          exists info, info ∈ found
                       /\ info !! "address" = Some (VStr ("$" +:+ upper d))).
Proof.
  intros _.
  destruct (detect_addresses_found query) as (found & Hfound & Hlen & Hall).
  exists found. split; [done|]. split; [done|]. split.
  - intros info Hinfo. by apply (proj1 (Forall_forall _ _) Hall).
  - intros Hfew d Hd Hfive. by apply (detect_addresses_all query d found).
Qed.

Lemma detected_addresses_are_resolved_witness :
  is_ascii "compare $2100 with $7e0000" = true
  /\ exists found,
       @detect_and_explain_addresses insertion_order (Some mcp_client)
         "compare $2100 with $7e0000" = Returns found
       /\ (length found <= 10)%nat
       /\ (forall info,
             info ∈ found ->
             exists d, d ∈ address_findall "compare $2100 with $7e0000"
                       /\ String.length d <> 5%nat
                       /\ info !! "address" = Some (VStr ("$" +:+ upper d))
                       /\ is_returns (format_address info) = true)
       /\ ((length (remove_dups
                      (address_findall "compare $2100 with $7e0000"))
            <= 10)%nat ->
           forall d,
             d ∈ address_findall "compare $2100 with $7e0000" ->
             String.length d <> 5%nat ->
             exists info,
               info ∈ found
               /\ info !! "address" = Some (VStr ("$" +:+ upper d))).
Proof.
  split; [reflexivity|].
  apply (@detected_addresses_are_resolved insertion_order
           "compare $2100 with $7e0000").
  reflexivity.
Defined.

Lemma upper_lower_char (c : ascii) : upper_char (lower_char c) = upper_char c.
Proof. destruct c as [[] [] [] [] [] [] [] []]; reflexivity. Qed.

Lemma upper_lower (s : string) : upper (lower s) = upper s.
Proof.
  induction s as [|c s IH]; [done|].
  unfold lower, upper in *. simpl. by rewrite upper_lower_char, IH.
Qed.

(** X10. The instruction detector ignores the letter case of an ASCII
    query, so that a word of the prose such as "and" counts as the mnemonic
    AND. *)
Theorem instruction_detection_ignores_case `{SetOrder}
    (mcp : option McpClient) (query : string) :
  is_ascii query = true ->
  detect_and_explain_instructions mcp (lower query)
  = detect_and_explain_instructions mcp query
  /\ detect_and_explain_instructions mcp (upper query)
     = detect_and_explain_instructions mcp query.
Proof.
  intros _. unfold detect_and_explain_instructions.
  by rewrite upper_lower, upper_idempotent.
Qed.

Lemma instruction_detection_ignores_case_witness :
  is_ascii "Magic and Speed" = true
  /\ @detect_and_explain_instructions insertion_order (Some mcp_client)
       (lower "Magic and Speed")
     = @detect_and_explain_instructions insertion_order (Some mcp_client)
         "Magic and Speed"
  /\ @detect_and_explain_instructions insertion_order (Some mcp_client)
       (upper "Magic and Speed")
     = @detect_and_explain_instructions insertion_order (Some mcp_client)
         "Magic and Speed".
Proof.
  split; [reflexivity|].
  apply (@instruction_detection_ignores_case insertion_order
           (Some mcp_client) "Magic and Speed").
  reflexivity.
Defined.

(** X11. When neither pattern finds anything in an ASCII query, no lookup
    is made and the context is the one built without the lookups, whatever
    the lookup client and the store do. *)
Theorem nothing_detected_nothing_added `{SetOrder} (client : McpClient)
    (self : SNESRAGPipeline) (query : string) (max_items : Z) :
  is_ascii query = true ->
  instruction_findall (upper query) = [] ->
  address_findall query = [] ->
  detect_and_explain_instructions (Some client) query = Returns []
  /\ detect_and_explain_addresses (Some client) query = Returns []
  /\ build_context (Some client) self query max_items
     = build_context None self query max_items.
Proof.
  intros _ Hi Ha.
  assert (detect_and_explain_instructions (Some client) query = Returns [])
    as Hdi by (unfold detect_and_explain_instructions; by rewrite Hi).
  assert (detect_and_explain_addresses (Some client) query = Returns [])
    as Hda by (unfold detect_and_explain_addresses; by rewrite Ha).
  split; [done|]. split; [done|].
  unfold build_context, enrichment_sections, footer_line.
  rewrite Hdi, Hda. done.
Qed.

Lemma nothing_detected_nothing_added_witness :
  is_ascii "infinite magic please" = true
  /\ instruction_findall (upper "infinite magic please") = []
  /\ address_findall "infinite magic please" = []
  /\ @detect_and_explain_instructions insertion_order (Some mcp_client)
       "infinite magic please" = Returns []
  /\ @detect_and_explain_addresses insertion_order (Some mcp_client)
       "infinite magic please" = Returns []
  /\ @build_context insertion_order (Some mcp_client) sample_pipeline
       "infinite magic please" 10
     = @build_context insertion_order None sample_pipeline
         "infinite magic please" 10.
Proof.
  split; [reflexivity|]. split; [reflexivity|]. split; [reflexivity|].
  apply (@nothing_detected_nothing_added insertion_order mcp_client
           sample_pipeline "infinite magic please" 10); reflexivity.
Defined.

(** ** Keywords and letter case *)

Lemma lower_upper_char (c : ascii) : lower_char (upper_char c) = lower_char c.
Proof. destruct c as [[] [] [] [] [] [] [] []]; reflexivity. Qed.

Lemma lower_upper (s : string) : lower (upper s) = lower s.
Proof.
  induction s as [|c s IH]; [done|].
  unfold lower, upper in *. simpl. by rewrite lower_upper_char, IH.
Qed.

Lemma str_in_embedded (sub a s b : string) :
  str_in sub s = true -> str_in sub (a +:+ s +:+ b) = true.
Proof.
  rewrite !str_in_spec. intros (p & q & ->).
  exists (a +:+ p), (q +:+ b). by rewrite !append_assoc.
Qed.

(** X12. Keyword extraction ignores the letter case of ASCII text, and
    text put before or after a query never loses a keyword. *)
Theorem keywords_ignore_case_and_grow `{SetOrder} (text before after : string) :
  is_ascii (before +:+ text +:+ after) = true ->
  extract_keywords (upper text) = extract_keywords text
  /\ extract_keywords (lower text) = extract_keywords text
  /\ forall k, k ∈ extract_keywords text ->
               k ∈ extract_keywords (before +:+ text +:+ after).
Proof.
  intros _. unfold extract_keywords, keyword_hits.
  rewrite lower_upper, lower_idempotent. split; [done|]. split; [done|].
  intros k Hk. rewrite set_iter_elem in Hk |- *.
  apply list_elem_of_fmap in Hk as (phrase & -> & Hphrase).
  apply list_elem_of_fmap_2.
  apply list_elem_of_filter in Hphrase as [Hin Hphrase].
  apply list_elem_of_filter. split; [|done].
  unfold lower. rewrite !map_chars_append.
  apply Is_true_true. apply str_in_embedded. by apply Is_true_true.
Qed.

Lemma keywords_ignore_case_and_grow_witness :
  is_ascii ("Why is " +:+ "Infinite Magic" +:+ " broken?") = true
  /\ @extract_keywords insertion_order (upper "Infinite Magic")
     = @extract_keywords insertion_order "Infinite Magic"
  /\ @extract_keywords insertion_order (lower "Infinite Magic")
     = @extract_keywords insertion_order "Infinite Magic"
  /\ forall k, k ∈ @extract_keywords insertion_order "Infinite Magic" ->
               k ∈ @extract_keywords insertion_order
                     ("Why is " +:+ "Infinite Magic" +:+ " broken?").
Proof.
  split; [reflexivity|].
  apply (@keywords_ignore_case_and_grow insertion_order "Infinite Magic"
           "Why is " " broken?").
  reflexivity.
Defined.

Lemma extract_keywords_tokens `{SetOrder} (text k : string) :
  k ∈ extract_keywords text -> k ∈ keyword_tokens.
Proof.
  unfold extract_keywords, keyword_tokens. intros Hk.
  apply set_iter_elem, list_elem_of_fmap in Hk as (phrase & -> & Hphrase).
  apply list_elem_of_filter in Hphrase as [_ Hphrase].
  by apply list_elem_of_fmap_2.
Qed.

(** X13. Five words the retrievals test for can never be in an extracted
    keyword set: "interrupt", "nmi" and "irq" of the register category cpu,
    and "sprite_system" and "dungeon_system" of the component names.  So the
    category cpu is chosen exactly for the keyword "cpu" when no keyword of
    the category ppu is there, and the component names "sprite_system" and
    "dungeon_system" are asked for exactly for the keywords "sprite" and
    "dungeon". *)
Theorem unreachable_trigger_words `{SetOrder} (text : string) :
  let keywords := extract_keywords text in
  Forall (fun w => w ∉ keywords)
    ["interrupt"; "nmi"; "irq"; "sprite_system"; "dungeon_system"]
  /\ (infer_category keywords = Some "cpu"
      <-> "cpu" ∈ keywords
          /\ Forall (fun w => w ∉ keywords)
               ["ppu"; "sprite"; "background"; "bgmode"])
  /\ ("sprite_system" ∈ infer_component_names keywords
      <-> "sprite" ∈ keywords)
  /\ ("dungeon_system" ∈ infer_component_names keywords
      <-> "dungeon" ∈ keywords).
Proof.
  intros keywords.
  assert (Forall (fun w => w ∉ keywords)
            ["interrupt"; "nmi"; "irq"; "sprite_system"; "dungeon_system"])
    as Hdead.
  { repeat apply Forall_cons_2; [..|apply Forall_nil_2];
      intros Hw%extract_keywords_tokens; revert Hw;
      apply (bool_decide_eq_false_1 _); vm_compute; reflexivity. }
  split; [exact Hdead|].
  rewrite !Forall_cons in Hdead.
  destruct Hdead as (Hinterrupt & Hnmi & Hirq & Hss & Hds & _).
  unfold infer_category, infer_component_names, any_in. simpl existsb.
  rewrite (bool_decide_eq_false_2 _ Hinterrupt),
    (bool_decide_eq_false_2 _ Hnmi), (bool_decide_eq_false_2 _ Hirq),
    (bool_decide_eq_false_2 _ Hss), (bool_decide_eq_false_2 _ Hds).
  rewrite !Forall_cons, !orb_false_r.
  split; [|split].
  - repeat case_bool_decide; simpl; (split; [intros [=] || intros _ | intros (? & ? & ? & ? & ? & _)]); try done.
  - repeat case_bool_decide; simpl;
      rewrite ?elem_of_app, ?elem_of_cons, ?elem_of_nil;
      intuition (try discriminate; auto).
  - repeat case_bool_decide; simpl;
      rewrite ?elem_of_app, ?elem_of_cons, ?elem_of_nil;
      intuition (try discriminate; auto).
Qed.

(** ** The search entry point *)

Lemma knowledge_matches_nil (k : KnowledgeNode) : knowledge_matches [] k = false.
Proof.
  unfold knowledge_matches. simpl. rewrite orb_false_r.
  induction (know_tags k) as [|t ts IH]; done.
Qed.

(** X14. For a query without keyword on a store that answers, the search
    entry point returns the three fallback samples (three mods, five
    registers by address, three components) and no knowledge entry, while
    the context of the same query is empty. *)
Theorem search_without_keywords `{SetOrder} (mcp : option McpClient)
    (g : Graph) (query : string) (max_items : Z) :
  extract_keywords query = [] ->
  let self := {| driver := Some (graph_session g) |} in
  search_knowledge_graph self query
  = Returns (Results (mod_record <$> take 3 (group_mods (mod_nodes g)))
               (register_record
                  <$> take 5 (order_by_address (register_nodes g)))
               (component_record <$> take 3 (component_nodes g))
               [])
  /\ build_context mcp self query max_items = Returns "".
Proof.
  intros E self. split; [|by apply build_context_no_keywords].
  unfold search_knowledge_graph. simpl. rewrite E. simpl.
  replace (filter (fun k => knowledge_matches [] k) (knowledge_nodes g))
    with (@nil KnowledgeNode); [done|].
  induction (knowledge_nodes g) as [|k ks IH]; [done|].
  rewrite filter_cons. rewrite knowledge_matches_nil. done.
Qed.

Lemma search_without_keywords_witness :
  @extract_keywords insertion_order "hello world" = []
  /\ let self := {| driver := Some (graph_session sample_graph) |} in
     @search_knowledge_graph insertion_order self "hello world"
     = Returns (Results
                  (mod_record <$> take 3 (group_mods (mod_nodes sample_graph)))
                  (register_record
                     <$> take 5 (order_by_address (register_nodes sample_graph)))
                  (component_record <$> take 3 (component_nodes sample_graph))
                  [])
     /\ @build_context insertion_order (Some mcp_client) self "hello world" 10
        = Returns "".
Proof.
  split; [reflexivity|].
  apply (@search_without_keywords insertion_order (Some mcp_client)
           sample_graph "hello world" 10).
  reflexivity.
Defined.

(** X15. Without a driver the search entry point returns the empty
    result.  With a driver its four lists are the four retrievals that
    [build_context] merges, and it raises exactly the exception that the
    retrievals of [build_context] raise. *)
Theorem search_agrees_with_retrieval `{SetOrder} (self : SNESRAGPipeline)
    (query : string) :
  (is_available self = false ->
   search_knowledge_graph self query = Returns NoResults)
  /\ (is_available self = true ->
      (forall mods registers components knowledge,
         search_knowledge_graph self query
         = Returns (Results mods registers components knowledge) ->
         retrieve_candidates self (extract_keywords query)
         = Returns (merge_candidates mods registers components knowledge))
      /\ (forall e,
            search_knowledge_graph self query = Raises e
            <-> retrieve_candidates self (extract_keywords query)
                = Raises e)).
Proof.
  unfold search_knowledge_graph, retrieve_candidates, is_available.
  destruct (driver self) as [session|] eqn:Hdriver; (split; [done|]);
    [|done].
  intros _.
  destruct (get_relevant_mods self (extract_keywords query)) as [m|e1];
    simpl; [|split; [intros ? ? ? ?; discriminate
                   | intros e; split; intros [= <-]; reflexivity]].
  destruct (get_relevant_registers self (extract_keywords query)) as [r|e2];
    simpl; [|split; [intros ? ? ? ?; discriminate
                   | intros e; split; intros [= <-]; reflexivity]].
  destruct (get_relevant_components self (extract_keywords query)) as [c|e3];
    simpl; [|split; [intros ? ? ? ?; discriminate
                   | intros e; split; intros [= <-]; reflexivity]].
  destruct (get_relevant_knowledge self (extract_keywords query)) as [k|e4];
    simpl; [|split; [intros ? ? ? ?; discriminate
                   | intros e; split; intros [= <-]; reflexivity]].
  split; [|intros e; split; discriminate].
  by intros mods registers components knowledge [= <- <- <- <-].
Qed.

(** ** Scores, families and limits *)

(** X16. The score reads the fields name, description, topic and content
    and nothing else: two items that agree on these four fields get the
    same score, so the family tag, the address or the type of an item never
    change it. *)
Theorem score_reads_text_fields_only (item1 item2 : Item) (query : string)
    (keywords : list string) :
  forallb (fun key => bool_decide (item1 !! key = item2 !! key)) text_keys
  = true ->
  calculate_relevance_score item1 query keywords
  = calculate_relevance_score item2 query keywords.
Proof.
  intros Hsame. unfold text_keys in Hsame. simpl in Hsame.
  apply andb_true_iff in Hsame as [Hname%bool_decide_eq_true Hsame].
  apply andb_true_iff in Hsame as [Hdesc%bool_decide_eq_true Hsame].
  apply andb_true_iff in Hsame as [Htopic%bool_decide_eq_true Hsame].
  apply andb_true_iff in Hsame as [Hcontent%bool_decide_eq_true _].
  unfold calculate_relevance_score, searchable_text, text_part.
  by rewrite Hname, Hdesc, Htopic, Hcontent.
Qed.

Lemma score_reads_text_fields_only_witness :
  forallb (fun key => bool_decide (tag "register" late_hit_item !! key
                                   = late_hit_item !! key)) text_keys
  = true
  /\ calculate_relevance_score (tag "register" late_hit_item) "ppu dma"
       ["dma"; "ppu"]
     = calculate_relevance_score late_hit_item "ppu dma" ["dma"; "ppu"].
Proof.
  split; [vm_compute; reflexivity|].
  apply (score_reads_text_fields_only (tag "register" late_hit_item)
           late_hit_item "ppu dma" ["dma"; "ppu"]).
  vm_compute; reflexivity.
Defined.

Lemma keep_if_tagged (t t' : string) (items : list Item) :
  keep_if (of_type t) (tag t' <$> items)
  = Returns (if decide (t' = t) then tag t' <$> items else []).
Proof.
  induction items as [|item items IH]; [by destruct (decide (t' = t))|].
  rewrite fmap_cons. simpl. rewrite IH.
  unfold of_type, item_get, tag. rewrite lookup_insert_eq. simpl.
  destruct (decide (t' = t)) as [->|Hne].
  - by rewrite bool_decide_eq_true_2.
  - rewrite bool_decide_eq_false_2; [done|]. congruence.
Qed.

Lemma keep_if_app {A} (f : A -> outcome bool) (a b a' b' : list A) :
  keep_if f a = Returns a' -> keep_if f b = Returns b' ->
  keep_if f (a ++ b) = Returns (a' ++ b').
Proof.
  revert a'. induction a as [|x a IH]; intros a' Ha Hb.
  - injection Ha as <-. done.
  - simpl in Ha. simpl.
    apply bind_returns in Ha as (keep & -> & Ha).
    apply bind_returns in Ha as (rest & Hrest & Ha).
    injection Ha as <-. simpl.
    rewrite (IH rest Hrest Hb). simpl. by destruct keep.
Qed.

(** X17. Tagging and regrouping are inverse: filtering the merged
    candidates by a family tag gives back exactly the tagged records of that
    family, in their order. *)
Theorem families_survive_merging (mods registers components knowledge : list Item) :
  let merged := merge_candidates mods registers components knowledge in
  keep_if (of_type "mod") merged = Returns (tag "mod" <$> mods)
  /\ keep_if (of_type "register") merged
     = Returns (tag "register" <$> registers)
  /\ keep_if (of_type "component") merged
     = Returns (tag "component" <$> components)
  /\ keep_if (of_type "knowledge") merged
     = Returns (tag "knowledge" <$> knowledge).
Proof.
  unfold merge_candidates.
  repeat split.
  - rewrite (keep_if_app _ _ _ (tag "mod" <$> mods) []);
      [by rewrite app_nil_r | apply keep_if_tagged |].
    rewrite (keep_if_app _ _ _ [] []); [done | apply keep_if_tagged |].
    rewrite (keep_if_app _ _ _ [] []); [done | apply keep_if_tagged
                                              | apply keep_if_tagged].
  - rewrite (keep_if_app _ _ _ [] (tag "register" <$> registers));
      [done | apply keep_if_tagged |].
    rewrite (keep_if_app _ _ _ (tag "register" <$> registers) []);
      [by rewrite app_nil_r | apply keep_if_tagged |].
    rewrite (keep_if_app _ _ _ [] []); [done | apply keep_if_tagged
                                              | apply keep_if_tagged].
  - rewrite (keep_if_app _ _ _ [] (tag "component" <$> components));
      [done | apply keep_if_tagged |].
    rewrite (keep_if_app _ _ _ [] (tag "component" <$> components));
      [done | apply keep_if_tagged |].
    rewrite (keep_if_app _ _ _ (tag "component" <$> components) []);
      [by rewrite app_nil_r | apply keep_if_tagged | apply keep_if_tagged].
  - rewrite (keep_if_app _ _ _ [] (tag "knowledge" <$> knowledge));
      [done | apply keep_if_tagged |].
    rewrite (keep_if_app _ _ _ [] (tag "knowledge" <$> knowledge));
      [done | apply keep_if_tagged |].
    rewrite (keep_if_app _ _ _ [] (tag "knowledge" <$> knowledge));
      [done | apply keep_if_tagged | apply keep_if_tagged].
Qed.


Lemma str_length_append (a b : string) :
  String.length (a +:+ b) = (String.length a + String.length b)%nat.
Proof.
  induction a as [|c a IH]; [done|]. rewrite append_cons. simpl. by rewrite IH.
Qed.

Lemma str_take_split (n : nat) (s : string) :
  (n <= String.length s)%nat ->
  String.length (str_take n s) = n
  /\ exists rest, s = str_take n s +:+ rest.
Proof.
  unfold str_take. revert s. induction n as [|n IH]; intros s Hn.
  - destruct s; (split; [done|]); eexists; reflexivity.
  - destruct s as [|c s]; simpl in Hn; [lia|].
    destruct (IH s) as (Hlen & rest & Hrest); [lia|].
    simpl. split; [by rewrite Hlen|].
    exists rest. by rewrite append_cons, <- Hrest.
Qed.

(** X19. The line of a knowledge entry with ASCII content shows the
    content as it is up to 200 characters, and else its first 200 characters
    followed by three dots, so never more than 203 characters of it. *)
Theorem knowledge_line_is_bounded (k : Item) (topic content : string) :
  k !! "topic" = Some (VStr topic) ->
  k !! "content" = Some (VStr content) ->
  is_ascii content = true ->
  exists shown,
    truncate_content k = Returns shown
    /\ format_knowledge k = Returns ("  - **" +:+ topic +:+ "**: " +:+ shown)
    /\ (String.length shown <= 203)%nat
    /\ ((String.length content <= 200)%nat -> shown = content)
    /\ ((200 < String.length content)%nat ->
        exists rest,
          content = str_take 200 content +:+ rest
          /\ shown = str_take 200 content +:+ "..."
          /\ String.length shown = 203%nat).
Proof.
  intros Htopic Hcontent _.
  unfold format_knowledge, truncate_content, item_get.
  rewrite Hcontent, Htopic. simpl bind. unfold len.
  destruct (Z.of_nat (String.length content) >? 200) eqn:Hlong.
  - apply Z.gtb_lt in Hlong.
    destruct (str_take_split 200 content) as (Hlen & rest & Hrest); [lia|].
    exists (str_take 200 content +:+ "..."). simpl bind.
    split; [done|]. split; [done|].
    assert (String.length (str_take 200 content +:+ "...") = 203%nat)
      as Hshown by (rewrite str_length_append, Hlen; reflexivity).
    split; [lia|]. split; [lia|]. intros _. by exists rest.
  - assert (String.length content <= 200)%nat as Hshort.
    { destruct (Z.gtb_spec (Z.of_nat (String.length content)) 200);
        [done | lia]. }
    exists content. simpl.
    split; [done|]. split; [done|]. split; [lia|]. split; [done | lia].
Qed.

Lemma knowledge_line_is_bounded_witness :
  knowledge_record {| know_topic := "magic meter";
                      know_content := "The magic meter is stored in work RAM";
                      know_type := "knowledge"; know_tags := ["magic"] |}
    !! "topic" = Some (VStr "magic meter")
  /\ knowledge_record {| know_topic := "magic meter";
                         know_content := "The magic meter is stored in work RAM";
                         know_type := "knowledge"; know_tags := ["magic"] |}
       !! "content" = Some (VStr "The magic meter is stored in work RAM")
  /\ is_ascii "The magic meter is stored in work RAM" = true
  /\ exists shown,
       truncate_content
         (knowledge_record
            {| know_topic := "magic meter";
               know_content := "The magic meter is stored in work RAM";
               know_type := "knowledge"; know_tags := ["magic"] |})
       = Returns shown
       /\ format_knowledge
            (knowledge_record
               {| know_topic := "magic meter";
                  know_content := "The magic meter is stored in work RAM";
                  know_type := "knowledge"; know_tags := ["magic"] |})
          = Returns ("  - **" +:+ "magic meter" +:+ "**: " +:+ shown)
       /\ (String.length shown <= 203)%nat
       /\ ((String.length "The magic meter is stored in work RAM" <= 200)%nat ->
           shown = "The magic meter is stored in work RAM")
       /\ ((200 < String.length "The magic meter is stored in work RAM")%nat ->
           exists rest,
             "The magic meter is stored in work RAM"
             = str_take 200 "The magic meter is stored in work RAM" +:+ rest
             /\ shown
                = str_take 200 "The magic meter is stored in work RAM" +:+ "..."
             /\ String.length shown = 203%nat).
Proof.
  split; [reflexivity|]. split; [reflexivity|]. split; [reflexivity|].
  apply (knowledge_line_is_bounded _ "magic meter"
           "The magic meter is stored in work RAM"); reflexivity.
Defined.

(** ** The context as a whole *)





